(** * Pod manifest validator: a shallow embedding and its properties

    The repository holds two variants of one validator for a Pod-like
    YAML document.  [src/main.go] stops at the first violation
    (module [FailFast]); the second file collects every violation in a
    context and prints them at the end (module [Accumulate]).  Both walk
    the generic [yaml.Node] tree produced by gopkg.in/yaml.v3.

    Go strings are byte sequences and are modelled by [string]; Go [int]
    (64 bit) is modelled by [Z]; a run-time panic (index out of range) is
    the [Panic] outcome of [result]. *)

From Stdlib Require Import ZArith List String Ascii Bool Lia.
Import ListNotations.

Local Open Scope string_scope.
Local Open Scope Z_scope.

(** ** Outcomes of code that may panic *)

Inductive result (A : Type) : Type :=
| Ok (a : A)
| Panic.

Arguments Ok {A} a.
Arguments Panic {A}.

Definition bind {A B : Type} (r : result A) (f : A -> result B) : result B :=
  match r with
  | Ok a => f a
  | Panic => Panic
  end.

Notation "x <- e ;; k" := (bind e (fun x => k))
  (at level 61, e at next level, right associativity).

(** ** The parts of the Go library the validators call *)

Module GoStrings.

(** The slow paths of [strings.TrimSpace], [strings.ToLower] and
    [strings.ToUpper] go through the tables of package [unicode]; they
    are entered only when the text holds a byte above 0x7f.  The tables
    are not part of the repository: the validators are parametric in
    them. *)
Class Unicode : Type := {
  (** [strings.TrimFunc(s, unicode.IsSpace)] *)
  trimFuncIsSpace : string -> string;
  (** [strings.TrimRightFunc(s, unicode.IsSpace)] *)
  trimRightFuncIsSpace : string -> string;
  (** [strings.Map(unicode.ToLower, s)] *)
  mapToLower : string -> string;
  (** [strings.Map(unicode.ToUpper, s)] *)
  mapToUpper : string -> string
}.

Definition byte (c : ascii) : Z := Z.of_N (N_of_ascii c).

Definition ofByte (b : Z) : ascii := ascii_of_N (Z.to_N b).

(** [utf8.RuneSelf] *)
Definition RuneSelf : Z := 128.

(** The table [asciiSpace] of package strings: tab, newline, vertical
    tab, form feed, carriage return, space. *)
Definition asciiSpace (c : ascii) : bool :=
  let b := byte c in
  (b =? 9) || (b =? 10) || (b =? 11) || (b =? 12) || (b =? 13) || (b =? 32).

Inductive scan : Type :=
| Stop (kept : string)
| NonASCII (kept : string).

(** First loop of [TrimSpace]: advance [start] over ASCII spaces. *)
Fixpoint scanLeft (s : string) : scan :=
  match s with
  | EmptyString => Stop EmptyString
  | String c r =>
      if RuneSelf <=? byte c then NonASCII s
      else if asciiSpace c then scanLeft r
      else Stop s
  end.

(** Second loop of [TrimSpace]: move [stop] back over ASCII spaces; the
    result holds [s[start:stop]]. *)
Fixpoint scanRight (s : string) : scan :=
  match s with
  | EmptyString => Stop EmptyString
  | String c r =>
      match scanRight r with
      | Stop EmptyString =>
          if RuneSelf <=? byte c then NonASCII (String c EmptyString)
          else if asciiSpace c then Stop EmptyString
          else Stop (String c EmptyString)
      | Stop r' => Stop (String c r')
      | NonASCII r' => NonASCII (String c r')
      end
  end.

Definition TrimSpace `{U : Unicode} (s : string) : string :=
  match scanLeft s with
  | NonASCII r => trimFuncIsSpace r
  | Stop r =>
      match scanRight r with
      | NonASCII r' => trimRightFuncIsSpace r'
      | Stop r' => r'
      end
  end.

Fixpoint allASCII (s : string) : bool :=
  match s with
  | EmptyString => true
  | String c r => (byte c <? RuneSelf) && allASCII r
  end.

Definition isUpperByte (c : ascii) : bool := (65 <=? byte c) && (byte c <=? 90).
Definition isLowerByte (c : ascii) : bool := (97 <=? byte c) && (byte c <=? 122).

Fixpoint existsByte (p : ascii -> bool) (s : string) : bool :=
  match s with
  | EmptyString => false
  | String c r => p c || existsByte p r
  end.

Fixpoint mapBytes (f : ascii -> ascii) (s : string) : string :=
  match s with
  | EmptyString => EmptyString
  | String c r => String (f c) (mapBytes f r)
  end.

Definition lowerByte (c : ascii) : ascii :=
  if isUpperByte c then ofByte (byte c + 32) else c.

Definition upperByte (c : ascii) : ascii :=
  if isLowerByte c then ofByte (byte c - 32) else c.

Definition ToLower `{U : Unicode} (s : string) : string :=
  if allASCII s then
    if negb (existsByte isUpperByte s) then s else mapBytes lowerByte s
  else mapToLower s.

Definition ToUpper `{U : Unicode} (s : string) : string :=
  if allASCII s then
    if negb (existsByte isLowerByte s) then s else mapBytes upperByte s
  else mapToUpper s.

Fixpoint HasPrefix (s pre : string) : bool :=
  match pre, s with
  | EmptyString, _ => true
  | String p pre', String c s' => Ascii.eqb c p && HasPrefix s' pre'
  | String _ _, EmptyString => false
  end.

(** [strings.LastIndex(s, sep)] for a separator of one byte: the index of
    its last occurrence, or -1. *)
Fixpoint LastIndexByte (s : string) (sep : ascii) : Z :=
  match s with
  | EmptyString => -1
  | String c r =>
      let i := LastIndexByte r sep in
      if 0 <=? i then i + 1
      else if Ascii.eqb c sep then 0 else -1
  end.

(** [strings.Contains(s, sep)] for a separator of one byte. *)
Definition ContainsByte (s : string) (sep : ascii) : bool :=
  existsByte (Ascii.eqb sep) s.

Fixpoint drop (n : nat) (s : string) : string :=
  match n, s with
  | O, _ => s
  | S n', String _ r => drop n' r
  | S _, EmptyString => EmptyString
  end.

(** The slice [s[i:]]; the call sites have [0 <= i <= len(s)]. *)
Definition sliceFrom (s : string) (i : Z) : string := drop (Z.to_nat i) s.

Definition isDigit (c : ascii) : bool := (48 <=? byte c) && (byte c <=? 57).

Fixpoint allDigits (s : string) : bool :=
  match s with
  | EmptyString => true
  | String c r => isDigit c && allDigits r
  end.

(** The loop [n = n*10 + int(ch - '0')]. *)
Fixpoint digitsValue (acc : Z) (s : string) : Z :=
  match s with
  | EmptyString => acc
  | String c r => digitsValue (acc * 10 + (byte c - 48)) r
  end.

Definition maxInt : Z := 2 ^ 63 - 1.
Definition minInt : Z := - 2 ^ 63.

(** [strconv.Atoi] on a 64-bit platform: an optional sign, then one or
    more decimal digits; a value outside [int] is a range error.  [None]
    stands for a non-nil error. *)
Definition Atoi (s : string) : option Z :=
  let '(neg, digits) :=
    match s with
    | String c r =>
        if Ascii.eqb c "-" then (true, r)
        else if Ascii.eqb c "+" then (false, r)
        else (false, s)
    | EmptyString => (false, s)
    end in
  match digits with
  | EmptyString => None
  | String _ _ =>
      if allDigits digits then
        let v := digitsValue 0 digits in
        let n := if neg then - v else v in
        if (minInt <=? n) && (n <=? maxInt) then Some n else None
      else None
  end.

(** [%d] of package fmt. *)
Definition digitChar (d : Z) : ascii := ofByte (48 + d).

Fixpoint utoa (fuel : nat) (n : Z) (acc : string) : string :=
  match fuel with
  | O => acc
  | S fuel' =>
      let acc' := String (digitChar (n mod 10)) acc in
      if n / 10 =? 0 then acc' else utoa fuel' (n / 10) acc'
  end.

Definition itoa (n : Z) : string :=
  if n <? 0 then String "-" (utoa (S (Z.to_nat (Z.log2 (- n)))) (- n) EmptyString)
  else utoa (S (Z.to_nat (Z.log2 n))) n EmptyString.

(** The newline byte. *)
Definition nl : string := String (ascii_of_nat 10) EmptyString.

(** *** The two regular expressions *)

Definition isLowerAlnum (c : ascii) : bool := isLowerByte c || isDigit c.

(** [^[a-z0-9]+(?:_[a-z0-9]+)*$], run as its automaton: [seen] says
    that the current run of [[a-z0-9]] is not empty. *)
Fixpoint snakeFrom (seen : bool) (s : string) : bool :=
  match s with
  | EmptyString => seen
  | String c r =>
      if isLowerAlnum c then snakeFrom true r
      else if Ascii.eqb c "_" then seen && snakeFrom false r
      else false
  end.

Definition snakeMatch (s : string) : bool := snakeFrom false s.

(** [^\d+(Gi|Mi|Ki)$]: after one or more digits the rest is exactly one
    of the three suffixes. *)
Fixpoint memFrom (seen : bool) (s : string) : bool :=
  match s with
  | EmptyString => false
  | String c r =>
      if isDigit c then memFrom true r
      else seen && ((s =? "Gi")%string || (s =? "Mi")%string || (s =? "Ki")%string)
  end.

Definition memMatch (s : string) : bool := memFrom false s.

End GoStrings.

Import GoStrings.

(** ** The tree of gopkg.in/yaml.v3 *)

Module Yaml.

Inductive Kind : Type :=
| DocumentNode
| SequenceNode
| MappingNode
| ScalarNode
| AliasNode.

Definition Kind_eqb (a b : Kind) : bool :=
  match a, b with
  | DocumentNode, DocumentNode
  | SequenceNode, SequenceNode
  | MappingNode, MappingNode
  | ScalarNode, ScalarNode
  | AliasNode, AliasNode => true
  | _, _ => false
  end.

(** The fields of [yaml.Node] the validators read.  The [Content] of a
    mapping node lists its keys and values in turn. *)
#[warnings="-register-all"]
Inductive Node : Type :=
  mkNode (kind : Kind) (tag value : string) (line : Z) (content : list Node).

Definition Kind_ (n : Node) : Kind := let 'mkNode k _ _ _ _ := n in k.
Definition Tag (n : Node) : string := let 'mkNode _ t _ _ _ := n in t.
Definition Value (n : Node) : string := let 'mkNode _ _ v _ _ := n in v.
Definition Line (n : Node) : Z := let 'mkNode _ _ _ l _ := n in l.
Definition Content (n : Node) : list Node := let 'mkNode _ _ _ _ c := n in c.

Definition isMapping (n : Node) : bool := Kind_eqb (Kind_ n) MappingNode.
Definition isSequence (n : Node) : bool := Kind_eqb (Kind_ n) SequenceNode.
Definition isScalar (n : Node) : bool := Kind_eqb (Kind_ n) ScalarNode.

(** [n] lies in the tree below (or is) [root]. *)
Inductive subnode : Node -> Node -> Prop :=
| sub_here : forall n, subnode n n
| sub_child : forall n c root, subnode n root -> In c (Content n) -> subnode c root.

(** What the parser guarantees of every node it builds: a line number
    counted from 1 and, in a mapping, as many values as keys. *)
Fixpoint parsed (n : Node) : bool :=
  match n with
  | mkNode k _ _ l c =>
      (0 <? l)
      && (negb (Kind_eqb k MappingNode) || Nat.even (List.length c))
      && forallb parsed c
  end.

(** Builders for the nodes of a parsed document. *)
Definition strN (l : Z) (v : string) : Node := mkNode ScalarNode "!!str" v l [].
Definition intN (l : Z) (v : string) : Node := mkNode ScalarNode "!!int" v l [].
Definition mapN (l : Z) (c : list Node) : Node := mkNode MappingNode "!!map" "" l c.
Definition seqN (l : Z) (c : list Node) : Node := mkNode SequenceNode "!!seq" "" l c.

End Yaml.

Import Yaml.

(** ** What the two variants share, word for word *)

(** [field] of the accumulating variant and [getField] of [main.go]: the
    value of the first key that is a scalar with the text [key].  Key and
    value are both read before the key is looked at, so a mapping that
    ends in a key without a value panics there. *)
Fixpoint fieldLoop (content : list Node) (key : string) : result (option Node) :=
  match content with
  | [] => Ok None
  | [_] => Panic
  | k :: v :: rest =>
      if isScalar k && (Value k =? key)%string then Ok (Some v)
      else fieldLoop rest key
  end.

Definition field (obj : Node) (key : string) : result (option Node) :=
  if negb (isMapping obj) then Ok None else fieldLoop (Content obj) key.

Definition quoted (v : string) : string := "'" ++ v ++ "'".

(** [fmt.Fprintf(w, ...)]: a stream is the list of the chunks written to
    it; the formatted text is written out at each call. *)
Definition Fprintf (w : list string) (text : string) : list string :=
  (w ++ [text])%list.

(** ** The variant that collects every violation *)

Module Accumulate.

Section Validator.
Context `{U : Unicode}.

Record verr : Type := { line : Z; msg : string }.

Record vctx : Type := { file : string; errs : list verr }.

(** [fmt.Sprintf(format, a...)] is written out at each call. *)
Definition add (c : vctx) (l : Z) (m : string) : vctx :=
  {| file := file c; errs := errs c ++ [ {| line := l; msg := m |} ] |}.

Definition addRequired (c : vctx) (fld : string) : vctx :=
  {| file := file c; errs := errs c ++ [ {| line := 0; msg := fld ++ " is required" |} ] |}.

(** The body of the loop of [flush]. *)
Definition flushOne (f : string) (stdout : list string) (e : verr) : list string :=
  if 0 <? line e then Fprintf stdout (f ++ ":" ++ itoa (line e) ++ " " ++ msg e ++ nl)
  else Fprintf stdout (f ++ ": " ++ msg e ++ nl).

Definition flush (c : vctx) (stdout : list string) : list string * Z :=
  match errs c with
  | [] => (stdout, 0)
  | _ => (fold_left (flushOne (file c)) (errs c) stdout, 1)
  end.

Definition isStr (n : Node) : bool := isScalar n && (Tag n =? "!!str")%string.

Definition isInt (n : Node) : bool := isScalar n && (Tag n =? "!!int")%string.

(** [asInt]: the value when [ok], and the line. *)
Definition asInt (n : Node) : option Z * Z :=
  if negb (isScalar n) then (None, Line n)
  else match Atoi (TrimSpace (Value n)) with
       | None => (None, Line n)
       | Some i => (Some i, Line n)
       end.

(** *** validateRRSet *)

Definition rrEntry (ctx : vctx) (k v : Node) : vctx :=
  if (Value k =? "cpu")%string then
    if negb (isInt v) then add ctx (Line v) "cpu must be int" else ctx
  else if (Value k =? "memory")%string then
    if negb (isStr v) then add ctx (Line v) "memory must be string"
    else if negb (memMatch (Value v)) then
      add ctx (Line v) ("memory has invalid format " ++ quoted (Value v))
    else ctx
  else ctx.

Fixpoint rrLoop (ctx : vctx) (content : list Node) : result vctx :=
  match content with
  | [] => Ok ctx
  | [_] => Panic
  | k :: v :: rest => rrLoop (rrEntry ctx k v) rest
  end.

Definition validateRRSet (ctx : vctx) (n : Node) : result vctx :=
  if negb (isMapping n) then Ok (add ctx (Line n) "resources entry must be object")
  else rrLoop ctx (Content n).

(** *** validateResources *)

Definition resourcesSet (key : string) (ctx : vctx) (n : Node) : result vctx :=
  o <- field n key ;;
  match o with
  | Some s => validateRRSet ctx s
  | None => Ok ctx
  end.

Definition validateResources (ctx : vctx) (n : Node) : result vctx :=
  if negb (isMapping n) then Ok (add ctx (Line n) "resources must be object")
  else
    ctx <- resourcesSet "limits" ctx n ;;
    resourcesSet "requests" ctx n.

(** *** validateProbe *)

Definition probePath (ctx : vctx) (hg : Node) : result vctx :=
  o <- field hg "path" ;;
  match o with
  | None => Ok (addRequired ctx "path")
  | Some path =>
      if negb (isStr path) then Ok (add ctx (Line path) "path must be string")
      else if negb (HasPrefix (Value path) "/") then
        Ok (add ctx (Line path) ("path has invalid format " ++ quoted (Value path)))
      else Ok ctx
  end.

Definition probePort (ctx : vctx) (hg : Node) : result vctx :=
  o <- field hg "port" ;;
  match o with
  | None => Ok (addRequired ctx "port")
  | Some prt =>
      match asInt prt with
      | (None, l) => Ok (add ctx l "port must be int")
      | (Some v, _) =>
          if (v <=? 0) || (65536 <=? v) then
            Ok (add ctx (Line prt) "port value out of range")
          else Ok ctx
      end
  end.

Definition validateProbe (ctx : vctx) (n : Node) (short : string) : result vctx :=
  if negb (isMapping n) then Ok (add ctx (Line n) (short ++ " must be object"))
  else
    o <- field n "httpGet" ;;
    match o with
    | None => Ok (addRequired ctx "httpGet")
    | Some hg =>
        if negb (isMapping hg) then Ok (add ctx (Line hg) "httpGet must be object")
        else
          ctx <- probePath ctx hg ;;
          probePort ctx hg
    end.

(** *** validateContainerPort *)

Definition portNumber (ctx : vctx) (cp : Node) : vctx :=
  match asInt cp with
  | (None, l) => add ctx l "containerPort must be int"
  | (Some port, l) =>
      if (port <=? 0) || (65536 <=? port) then
        add ctx l "containerPort value out of range"
      else ctx
  end.

Definition portProtocol (ctx : vctx) (n : Node) : result vctx :=
  o <- field n "protocol" ;;
  match o with
  | Some proto =>
      if negb (isStr proto) then Ok (add ctx (Line proto) "protocol must be string")
      else
        let u := ToUpper (Value proto) in
        if (u =? "TCP")%string || (u =? "UDP")%string then Ok ctx
        else Ok (add ctx (Line proto)
                   ("protocol has unsupported value " ++ quoted (Value proto)))
  | None => Ok ctx
  end.

Definition validateContainerPort (ctx : vctx) (n : Node) : result vctx :=
  if negb (isMapping n) then Ok (add ctx (Line n) "ports item must be object")
  else
    o <- field n "containerPort" ;;
    match o with
    | None => Ok (addRequired ctx "containerPort")
    | Some cp => portProtocol (portNumber ctx cp) n
    end.

(** *** validateContainer *)

Definition containerName (ctx : vctx) (n : Node) : result vctx :=
  o <- field n "name" ;;
  match o with
  | None => Ok (addRequired ctx "name")
  | Some name =>
      if negb (isStr name) then Ok (add ctx (Line name) "name must be string")
      else if (TrimSpace (Value name) =? "")%string then
        Ok (add ctx (Line name) "name is required")
      else if negb (snakeMatch (Value name)) then
        Ok (add ctx (Line name) ("name has invalid format " ++ quoted (Value name)))
      else Ok ctx
  end.

Definition containerImage (ctx : vctx) (n : Node) : result vctx :=
  o <- field n "image" ;;
  match o with
  | None => Ok (addRequired ctx "image")
  | Some img =>
      if negb (isStr img) then Ok (add ctx (Line img) "image must be string")
      else if negb (HasPrefix (Value img) "registry.bigbrother.io/") then
        Ok (add ctx (Line img) ("image has invalid format " ++ quoted (Value img)))
      else
        let seg := sliceFrom (Value img) (LastIndexByte (Value img) "/" + 1) in
        if negb (ContainsByte seg ":") then
          Ok (add ctx (Line img) ("image has invalid format " ++ quoted (Value img)))
        else Ok ctx
  end.

(** [for _, p := range ports.Content]. *)
Fixpoint portsLoop (ctx : vctx) (ps : list Node) : result vctx :=
  match ps with
  | [] => Ok ctx
  | p :: rest => ctx <- validateContainerPort ctx p ;; portsLoop ctx rest
  end.

Definition containerPorts (ctx : vctx) (n : Node) : result vctx :=
  o <- field n "ports" ;;
  match o with
  | Some ports =>
      if negb (isSequence ports) then Ok (add ctx (Line ports) "ports must be array")
      else portsLoop ctx (Content ports)
  | None => Ok ctx
  end.

Definition containerProbe (key : string) (ctx : vctx) (n : Node) : result vctx :=
  o <- field n key ;;
  match o with
  | Some p => validateProbe ctx p key
  | None => Ok ctx
  end.

Definition containerResources (ctx : vctx) (n : Node) : result vctx :=
  o <- field n "resources" ;;
  match o with
  | None => Ok (addRequired ctx "resources")
  | Some res => validateResources ctx res
  end.

Definition validateContainer (ctx : vctx) (n : Node) : result vctx :=
  if negb (isMapping n) then Ok (add ctx (Line n) "containers item must be object")
  else
    ctx <- containerName ctx n ;;
    ctx <- containerImage ctx n ;;
    ctx <- containerPorts ctx n ;;
    ctx <- containerProbe "readinessProbe" ctx n ;;
    ctx <- containerProbe "livenessProbe" ctx n ;;
    containerResources ctx n.

(** *** validateSpecContainers *)

(** [for _, c := range containers.Content]. *)
Fixpoint containersLoop (ctx : vctx) (cs : list Node) : result vctx :=
  match cs with
  | [] => Ok ctx
  | c :: rest => ctx <- validateContainer ctx c ;; containersLoop ctx rest
  end.

Definition validateSpecContainers (ctx : vctx) (n : Node) : result vctx :=
  o <- field n "containers" ;;
  match o with
  | None => Ok (addRequired ctx "containers")
  | Some containers =>
      if negb (isSequence containers) then
        Ok (add ctx (Line containers) "containers must be array")
      else
        match Content containers with
        | [] => Ok (add ctx (Line containers) "containers value out of range")
        | cs => containersLoop ctx cs
        end
  end.

(** *** validateSpec *)

Definition validateSpec (ctx : vctx) (n : Node) : result vctx :=
  if negb (isMapping n) then Ok (add ctx (Line n) "spec must be object")
  else
    o <- field n "os" ;;
    match o with
    | Some osN =>
        if negb (isStr osN) then Ok (add ctx (Line osN) "os must be string")
        else
          let l := ToLower (Value osN) in
          if (l =? "linux")%string || (l =? "windows")%string then Ok ctx
          else Ok (add ctx (Line osN)
                     ("os has unsupported value " ++ quoted (Value osN)))
    | None => Ok ctx
    end.

(** *** validateMetadata *)

Definition metadataName (ctx : vctx) (n : Node) : result vctx :=
  o <- field n "name" ;;
  match o with
  | None => Ok (addRequired ctx "name")
  | Some name =>
      if negb (isStr name) then Ok (add ctx (Line name) "name must be string")
      else if (TrimSpace (Value name) =? "")%string then
        Ok (add ctx (Line name) "name is required")
      else Ok ctx
  end.

Definition metadataNamespace (ctx : vctx) (n : Node) : result vctx :=
  o <- field n "namespace" ;;
  match o with
  | Some ns =>
      if negb (isStr ns) then Ok (add ctx (Line ns) "namespace must be string")
      else Ok ctx
  | None => Ok ctx
  end.

Definition labelsEntry (ctx : vctx) (k v : Node) : vctx :=
  let ctx := if negb (isStr k) then add ctx (Line k) "labels key must be string"
             else ctx in
  if negb (isStr v) then add ctx (Line v) "labels value must be string" else ctx.

Fixpoint labelsLoop (ctx : vctx) (content : list Node) : result vctx :=
  match content with
  | [] => Ok ctx
  | [_] => Panic
  | k :: v :: rest => labelsLoop (labelsEntry ctx k v) rest
  end.

Definition metadataLabels (ctx : vctx) (n : Node) : result vctx :=
  o <- field n "labels" ;;
  match o with
  | Some labels =>
      if negb (isMapping labels) then
        Ok (add ctx (Line labels) "labels must be object")
      else labelsLoop ctx (Content labels)
  | None => Ok ctx
  end.

Definition validateMetadata (ctx : vctx) (n : Node) : result vctx :=
  if negb (isMapping n) then Ok (add ctx (Line n) "metadata must be object")
  else
    ctx <- metadataName ctx n ;;
    ctx <- metadataNamespace ctx n ;;
    metadataLabels ctx n.

(** *** validateTop *)

Definition topApiVersion (ctx : vctx) (n : Node) : result vctx :=
  o <- field n "apiVersion" ;;
  match o with
  | None => Ok (addRequired ctx "apiVersion")
  | Some api =>
      if negb (isStr api) then Ok (add ctx (Line api) "apiVersion must be string")
      else if negb (Value api =? "v1")%string then
        Ok (add ctx (Line api) ("apiVersion has unsupported value " ++ quoted (Value api)))
      else Ok ctx
  end.

Definition topKind (ctx : vctx) (n : Node) : result vctx :=
  o <- field n "kind" ;;
  match o with
  | None => Ok (addRequired ctx "kind")
  | Some kind =>
      if negb (isStr kind) then Ok (add ctx (Line kind) "kind must be string")
      else if negb (Value kind =? "Pod")%string then
        Ok (add ctx (Line kind) ("kind has unsupported value " ++ quoted (Value kind)))
      else Ok ctx
  end.

Definition topSpec (ctx : vctx) (spec : option Node) : result vctx :=
  match spec with
  | None => Ok (addRequired ctx "spec")
  | Some s => validateSpec ctx s
  end.

Definition topMetadata (ctx : vctx) (n : Node) : result vctx :=
  o <- field n "metadata" ;;
  match o with
  | None => Ok (addRequired ctx "metadata")
  | Some meta => validateMetadata ctx meta
  end.

(** The last statement of [validateTop]: [if spec != nil]. *)
Definition topContainers (ctx : vctx) (spec : option Node) : result vctx :=
  match spec with
  | Some s => validateSpecContainers ctx s
  | None => Ok ctx
  end.

Definition validateTop (ctx : vctx) (n : Node) : result vctx :=
  if negb (isMapping n) then
    Ok (add ctx (Line n) "document must be a mapping object")
  else
    ctx <- topApiVersion ctx n ;;
    ctx <- topKind ctx n ;;
    spec <- field n "spec" ;;
    ctx <- topSpec ctx spec ;;
    ctx <- topMetadata ctx n ;;
    topContainers ctx spec.

(** [main] from [ctx := &vctx{...}] on: the pass over [doc], then
    [flush]; the result is standard output and the exit code.
    [fileName] stands for [filepath.Base(fullPath)]. *)
Definition main (fileName : string) (doc : Node) (stdout : list string)
  : result (list string * Z) :=
  ctx <- validateTop {| file := fileName; errs := [] |} doc ;;
  Ok (flush ctx stdout).

End Validator.

End Accumulate.

(** ** The variant of [main.go], which stops at the first violation *)

Module FailFast.

Section Validator.
Context `{U : Unicode}.

(** A Go [error]: [None] is [nil], [Some] holds the text of the error. *)
Definition error : Type := option string.

(** The validators write to standard error and return an [error];
    standard error is the list of the chunks written to it. *)
Definition M : Type := list string -> result (error * list string).

Definition pass : M := fun stderr => Ok (None, stderr).

Definition panic : M := fun _ => Panic.

(** [if err := m; err != nil { return err }] followed by [k]. *)
Definition andThen (m k : M) : M :=
  fun stderr =>
    match m stderr with
    | Ok (None, stderr') => k stderr'
    | Ok (Some e, stderr') => Ok (Some e, stderr')
    | Panic => Panic
    end.

Notation "m >> k" := (andThen m k) (at level 62, right associativity).

Definition getField := field.

(** [x, ok := getField(n, key)] followed by [k]. *)
Definition withField (n : Node) (key : string) (k : option Node -> M) : M :=
  fun stderr =>
    match getField n key with
    | Ok o => k o stderr
    | Panic => Panic
    end.

Definition toInt (n : Node) : option Z := Atoi (TrimSpace (Value n)).

Definition fprintfErr (f : string) (l : Z) (m : string) (stderr : list string)
  : list string :=
  if 0 <? l then Fprintf stderr (f ++ ":" ++ itoa l ++ " " ++ m ++ nl)
  else Fprintf stderr (f ++ ": " ++ m ++ nl).

(** [fmt.Sprintf(format, a...)] is written out at each call. *)
Definition fail (f : string) (l : Z) (m : string) : M :=
  fun stderr =>
    Ok (Some "validation failed",
        if 0 <? l then fprintfErr f l m stderr else fprintfErr f 0 m stderr).

Definition failRequired (f fld : string) : M :=
  fun stderr =>
    Ok (Some "required field missing",
        Fprintf stderr (f ++ ": " ++ fld ++ " is required" ++ nl)).

(** The test [n.Kind != yaml.ScalarNode || n.Tag != "!!str"]. *)
Definition notStr (n : Node) : bool :=
  negb (isScalar n) || negb (Tag n =? "!!str")%string.

(** *** validateRRSet *)

Definition rrEntry (f : string) (pre : string) (k v : Node) : M :=
  if notStr k then fail f (Line k) (pre ++ " key must be string")
  else if (Value k =? "cpu")%string then
    if negb (isScalar v) then fail f (Line v) (pre ++ ".cpu must be int")
    else match toInt v with
         | None => fail f (Line v) (pre ++ ".cpu must be int")
         | Some _ => pass
         end
  else if (Value k =? "memory")%string then
    if notStr v then fail f (Line v) (pre ++ ".memory must be string")
    else if negb (memMatch (Value v)) then
      fail f (Line v) (pre ++ ".memory has invalid format " ++ quoted (Value v))
    else pass
  else pass.

Fixpoint rrLoop (f : string) (pre : string) (content : list Node) : M :=
  match content with
  | [] => pass
  | [_] => panic
  | k :: v :: rest => rrEntry f pre k v >> rrLoop f pre rest
  end.

Definition validateRRSet (f : string) (n : Node) (pre : string) : M :=
  if negb (isMapping n) then fail f (Line n) (pre ++ " must be object")
  else rrLoop f pre (Content n).

(** *** validateResources *)

Definition resourcesSet (f : string) (n : Node) (key : string) : M :=
  withField n key (fun o =>
    match o with
    | Some s => validateRRSet f s ("containers.resources." ++ key)
    | None => pass
    end).

Definition validateResources (f : string) (n : Node) : M :=
  if negb (isMapping n) then fail f (Line n) "containers.resources must be object"
  else resourcesSet f n "limits" >> resourcesSet f n "requests".

(** *** validateProbe *)

Definition probePath (f : string) (hg : Node) (pre : string) : M :=
  withField hg "path" (fun o =>
    match o with
    | None => failRequired f (pre ++ ".httpGet.path")
    | Some pathNode =>
        if notStr pathNode then
          fail f (Line pathNode) (pre ++ ".httpGet.path must be string")
        else if negb (HasPrefix (Value pathNode) "/") then
          fail f (Line pathNode)
            (pre ++ ".httpGet.path has invalid format " ++ quoted (Value pathNode))
        else pass
    end).

Definition probePort (f : string) (hg : Node) (pre : string) : M :=
  withField hg "port" (fun o =>
    match o with
    | None => failRequired f (pre ++ ".httpGet.port")
    | Some portNode =>
        if negb (isScalar portNode) then
          fail f (Line portNode) (pre ++ ".httpGet.port must be int")
        else match toInt portNode with
             | None => fail f (Line portNode) (pre ++ ".httpGet.port must be int")
             | Some p =>
                 if (p <=? 0) || (65536 <=? p) then
                   fail f (Line portNode) (pre ++ ".httpGet.port value out of range")
                 else pass
             end
    end).

Definition validateProbe (f : string) (n : Node) (pre : string) : M :=
  if negb (isMapping n) then fail f (Line n) (pre ++ " must be object")
  else
    withField n "httpGet" (fun o =>
      match o with
      | None => failRequired f (pre ++ ".httpGet")
      | Some hgNode =>
          if negb (isMapping hgNode) then
            fail f (Line hgNode) (pre ++ ".httpGet must be object")
          else probePath f hgNode pre >> probePort f hgNode pre
      end).

(** *** validateContainerPort *)

Definition portNumber (f : string) (cpNode : Node) : M :=
  if negb (isScalar cpNode) then fail f (Line cpNode) "containerPort must be int"
  else match toInt cpNode with
       | None => fail f (Line cpNode) "containerPort must be int"
       | Some port =>
           if (port <=? 0) || (65536 <=? port) then
             fail f (Line cpNode) "containerPort value out of range"
           else pass
       end.

Definition portProtocol (f : string) (n : Node) : M :=
  withField n "protocol" (fun o =>
    match o with
    | Some protoNode =>
        if notStr protoNode then fail f (Line protoNode) "protocol must be string"
        else
          let u := ToUpper (Value protoNode) in
          if (u =? "TCP")%string || (u =? "UDP")%string then pass
          else fail f (Line protoNode)
                 ("protocol has unsupported value " ++ quoted (Value protoNode))
    | None => pass
    end).

Definition validateContainerPort (f : string) (n : Node) : M :=
  if negb (isMapping n) then fail f (Line n) "containers.ports item must be object"
  else
    withField n "containerPort" (fun o =>
      match o with
      | None => failRequired f "containers.ports.containerPort"
      | Some cpNode => portNumber f cpNode >> portProtocol f n
      end).

(** *** validateContainer *)

Definition containerName (f : string) (n : Node) : M :=
  withField n "name" (fun o =>
    match o with
    | None => failRequired f "containers.name"
    | Some nameNode =>
        if notStr nameNode then fail f (Line nameNode) "containers.name must be string"
        else if negb (snakeMatch (Value nameNode)) then
          fail f (Line nameNode)
            ("containers.name has invalid format " ++ quoted (Value nameNode))
        else pass
    end).

Definition containerImage (f : string) (n : Node) : M :=
  withField n "image" (fun o =>
    match o with
    | None => failRequired f "containers.image"
    | Some imageNode =>
        if notStr imageNode then
          fail f (Line imageNode) "containers.image must be string"
        else if negb (HasPrefix (Value imageNode) "registry.bigbrother.io/") then
          fail f (Line imageNode)
            ("containers.image has invalid format " ++ quoted (Value imageNode))
        else
          let lastSlash := LastIndexByte (Value imageNode) "/" in
          if (lastSlash =? -1)
             || negb (ContainsByte (sliceFrom (Value imageNode) (lastSlash + 1)) ":")
          then
            fail f (Line imageNode)
              ("containers.image has invalid format " ++ quoted (Value imageNode))
          else pass
    end).

(** [for _, p := range portsNode.Content]. *)
Fixpoint portsLoop (f : string) (ps : list Node) : M :=
  match ps with
  | [] => pass
  | p :: rest => validateContainerPort f p >> portsLoop f rest
  end.

Definition containerPorts (f : string) (n : Node) : M :=
  withField n "ports" (fun o =>
    match o with
    | Some portsNode =>
        if negb (isSequence portsNode) then
          fail f (Line portsNode) "containers.ports must be array"
        else portsLoop f (Content portsNode)
    | None => pass
    end).

Definition containerProbe (f : string) (n : Node) (key : string) : M :=
  withField n key (fun o =>
    match o with
    | Some p => validateProbe f p ("containers." ++ key)
    | None => pass
    end).

Definition containerResources (f : string) (n : Node) : M :=
  withField n "resources" (fun o =>
    match o with
    | None => failRequired f "containers.resources"
    | Some resNode => validateResources f resNode
    end).

Definition validateContainer (f : string) (n : Node) : M :=
  if negb (isMapping n) then fail f (Line n) "containers item must be object"
  else
    containerName f n >> containerImage f n >> containerPorts f n
    >> containerProbe f n "readinessProbe" >> containerProbe f n "livenessProbe"
    >> containerResources f n.

(** *** validateSpec *)

Definition specOs (f : string) (n : Node) : M :=
  withField n "os" (fun o =>
    match o with
    | Some osNode =>
        if notStr osNode then fail f (Line osNode) "spec.os must be string"
        else
          let l := ToLower (Value osNode) in
          if (l =? "linux")%string || (l =? "windows")%string then pass
          else fail f (Line osNode)
                 ("spec.os has unsupported value " ++ quoted (Value osNode))
    | None => pass
    end).

(** [for _, c := range containersNode.Content]. *)
Fixpoint containersLoop (f : string) (cs : list Node) : M :=
  match cs with
  | [] => pass
  | c :: rest => validateContainer f c >> containersLoop f rest
  end.

Definition specContainers (f : string) (n : Node) : M :=
  withField n "containers" (fun o =>
    match o with
    | None => failRequired f "spec.containers"
    | Some containersNode =>
        if negb (isSequence containersNode) then
          fail f (Line containersNode) "spec.containers must be array"
        else
          match Content containersNode with
          | [] => fail f (Line containersNode) "spec.containers value out of range"
          | cs => containersLoop f cs
          end
    end).

Definition validateSpec (f : string) (n : Node) : M :=
  if negb (isMapping n) then fail f (Line n) "spec must be object"
  else specOs f n >> specContainers f n.

(** *** validateMetadata *)

Definition metadataName (f : string) (n : Node) : M :=
  withField n "name" (fun o =>
    match o with
    | None => failRequired f "metadata.name"
    | Some nameNode =>
        if notStr nameNode || (TrimSpace (Value nameNode) =? "")%string then
          fail f (Line nameNode) "metadata.name must be string"
        else pass
    end).

Definition metadataNamespace (f : string) (n : Node) : M :=
  withField n "namespace" (fun o =>
    match o with
    | Some nsNode =>
        if notStr nsNode then fail f (Line nsNode) "metadata.namespace must be string"
        else pass
    | None => pass
    end).

Definition labelsEntry (f : string) (k v : Node) : M :=
  if notStr k then fail f (Line k) "metadata.labels key must be string"
  else if notStr v then fail f (Line v) "metadata.labels value must be string"
  else pass.

Fixpoint labelsLoop (f : string) (content : list Node) : M :=
  match content with
  | [] => pass
  | [_] => panic
  | k :: v :: rest => labelsEntry f k v >> labelsLoop f rest
  end.

Definition metadataLabels (f : string) (n : Node) : M :=
  withField n "labels" (fun o =>
    match o with
    | Some labelsNode =>
        if negb (isMapping labelsNode) then
          fail f (Line labelsNode) "metadata.labels must be object"
        else labelsLoop f (Content labelsNode)
    | None => pass
    end).

Definition validateMetadata (f : string) (n : Node) : M :=
  if negb (isMapping n) then fail f (Line n) "metadata must be object"
  else metadataName f n >> metadataNamespace f n >> metadataLabels f n.

(** *** validateTopLevel *)

Definition topApiVersion (f : string) (n : Node) : M :=
  withField n "apiVersion" (fun o =>
    match o with
    | None => failRequired f "apiVersion"
    | Some apiNode =>
        if notStr apiNode then fail f (Line apiNode) "apiVersion must be string"
        else if negb (Value apiNode =? "v1")%string then
          fail f (Line apiNode)
            ("apiVersion has unsupported value " ++ quoted (Value apiNode))
        else pass
    end).

Definition topKind (f : string) (n : Node) : M :=
  withField n "kind" (fun o =>
    match o with
    | None => failRequired f "kind"
    | Some kindNode =>
        if notStr kindNode then fail f (Line kindNode) "kind must be string"
        else if negb (Value kindNode =? "Pod")%string then
          fail f (Line kindNode)
            ("kind has unsupported value " ++ quoted (Value kindNode))
        else pass
    end).

Definition topMetadata (f : string) (n : Node) : M :=
  withField n "metadata" (fun o =>
    match o with
    | None => failRequired f "metadata"
    | Some metaNode => validateMetadata f metaNode
    end).

Definition topSpec (f : string) (n : Node) : M :=
  withField n "spec" (fun o =>
    match o with
    | None => failRequired f "spec"
    | Some specNode => validateSpec f specNode
    end).

Definition validateTopLevel (f : string) (n : Node) : M :=
  if negb (isMapping n) then fail f (Line n) "document must be a mapping object"
  else topApiVersion f n >> topKind f n >> topMetadata f n >> topSpec f n.

(** [main] from [doc := root.Content[0]] on: standard error and the exit
    code. *)
Definition main (filename : string) (doc : Node) (stderr : list string)
  : result (list string * Z) :=
  match validateTopLevel filename doc stderr with
  | Ok (Some _, stderr') => Ok (stderr', 1)
  | Ok (None, stderr') => Ok (stderr', 0)
  | Panic => Panic
  end.

End Validator.

End FailFast.

(** ** Vocabulary of the properties *)

(** An instance without tables, for running the validators on documents
    whose text is ASCII: no slow path is entered there, so the outcome
    is the same under every instance. *)
Definition noTables : Unicode :=
  {| trimFuncIsSpace := fun s => s;
     trimRightFuncIsSpace := fun s => s;
     mapToLower := fun s => s;
     mapToUpper := fun s => s |}.

(** The context [c] with the errors [new] recorded after its own. *)
Definition extend (c : Accumulate.vctx) (new : list Accumulate.verr) : Accumulate.vctx :=
  {| Accumulate.file := Accumulate.file c;
     Accumulate.errs := (Accumulate.errs c ++ new)%list |}.

Definition verrOf (l : Z) (m : string) : Accumulate.verr :=
  {| Accumulate.line := l; Accumulate.msg := m |}.

(** Where a recorded error comes from: a required key that is absent
    from a node of the document (no line, message [key is required]),
    or a node of the document whose line the error carries. *)
Inductive explained (doc : Node) : Accumulate.verr -> Prop :=
| ex_missing : forall m key,
    subnode m doc -> field m key = Ok None ->
    explained doc (verrOf 0 (key ++ " is required"))
| ex_violation : forall n text,
    subnode n doc -> 0 < Line n ->
    explained doc (verrOf (Line n) text).

(** A node of a parsed document. *)
Definition good (doc n : Node) : Prop := subnode n doc /\ parsed n = true.

(** The same for a line written by [main.go]; there the message names
    the key by its path. *)
Inductive explainedLine (f : string) (doc : Node) : string -> Prop :=
| exl_missing : forall m key pre,
    subnode m doc -> field m key = Ok None ->
    explainedLine f doc (f ++ ": " ++ (pre ++ key) ++ " is required" ++ nl)
| exl_violation : forall n text,
    subnode n doc -> 0 < Line n ->
    explainedLine f doc (f ++ ":" ++ itoa (Line n) ++ " " ++ text ++ nl).

(** The accumulating rule [a] and the rule [m] of [main.go] side by
    side.  [a] returns with the errors [new] recorded, each explained;
    [m] returns [nil] and writes nothing, or returns an error and writes
    one explained line.  When [strict] is set the two also agree: [m]
    returns [nil] exactly when [new] is empty. *)
Definition rel (strict : bool) (f : string) (doc : Node)
  (a : Accumulate.vctx -> result Accumulate.vctx) (m : FailFast.M) : Prop :=
  exists new,
    Forall (explained doc) new
    /\ (forall c, a c = Ok (extend c new))
    /\ (((forall s, m s = Ok (None, s)) /\ (strict = true -> new = []))
        \/ (exists e l, explainedLine f doc l
                       /\ (forall s, m s = Ok (Some e, Fprintf s l))
                       /\ (strict = true -> new <> []))).

(** The accumulating rule [a] returns with errors recorded that all
    satisfy [P]. *)
Definition records (P : Accumulate.verr -> Prop)
  (a : Accumulate.vctx -> result Accumulate.vctx) : Prop :=
  exists new, Forall P new /\ forall c, a c = Ok (extend c new).

(** The error is not the range violation of [containers]. *)
Definition notRange (e : Accumulate.verr) : Prop :=
  (Accumulate.msg e =? "containers value out of range")%string = false.

(** What [flush] writes for one error. *)
Definition rendered (f : string) (e : Accumulate.verr) : string :=
  if 0 <? Accumulate.line e
  then f ++ ":" ++ itoa (Accumulate.line e) ++ " " ++ Accumulate.msg e ++ nl
  else f ++ ": " ++ Accumulate.msg e ++ nl.

(** The port bounds of the schema. *)
Definition outOfRange (p : Z) : bool := (p <=? 0) || (65536 <=? p).

(** The image rule in the words of the schema: the text starts with the
    registry, and what follows its last slash holds a colon. *)
Definition imageValid (v : string) : Prop :=
  HasPrefix v "registry.bigbrother.io/" = true
  /\ exists a b, v = a ++ "/" ++ b
                /\ ContainsByte b "/" = false
                /\ ContainsByte b ":" = true.

(** The node [n] with another tag. *)
Definition retag (t : string) (n : Node) : Node :=
  mkNode (Kind_ n) t (Value n) (Line n) (Content n).

(** *** Where the two variants judge a resource set differently *)

Section Agreement.
Context `{U : Unicode}.

(** On one entry the variants agree when the key is a string scalar and,
    under the key [cpu], the value carries the integer tag exactly when
    it is a scalar whose trimmed text is a decimal integer. *)
Definition entryAgree (k v : Node) : bool :=
  negb (FailFast.notStr k)
  && (negb (Value k =? "cpu")%string
      || Bool.eqb (Accumulate.isInt v)
           (isScalar v && match FailFast.toInt v with Some _ => true | None => false end)).

Fixpoint rrAgree (content : list Node) : bool :=
  match content with
  | k :: v :: rest => entryAgree k v && rrAgree rest
  | _ => true
  end.

Definition found (r : result (option Node)) : option Node :=
  match r with
  | Ok o => o
  | Panic => None
  end.

Definition setAgree (res : Node) (key : string) : bool :=
  match found (field res key) with
  | Some set => negb (isMapping set) || rrAgree (Content set)
  | None => true
  end.

Definition containerAgree (c : Node) : bool :=
  match found (field c "resources") with
  | Some res => setAgree res "limits" && setAgree res "requests"
  | None => true
  end.

Definition specAgree (spec : Node) : bool :=
  match found (field spec "containers") with
  | Some cs => negb (isSequence cs) || forallb containerAgree (Content cs)
  | None => true
  end.

(** Every resource set the validators reach in [doc] is one on which
    they agree. *)
Definition resourcesAgree (doc : Node) : bool :=
  match found (field doc "spec") with
  | Some spec => specAgree spec
  | None => true
  end.

End Agreement.

(** *** The rules that demand a key *)

Section Required.
Context `{U : Unicode}.



End Required.

(** *** Documents used below *)

Definition key (l : Z) (k : string) : Node := strN l k.

Definition webContainer (l : Z) : list Node :=
  [ key l "name"; strN l "web_app";
    key (l + 1) "image"; strN (l + 1) "registry.bigbrother.io/app:v1";
    key (l + 2) "resources"; mapN (l + 2) [] ].

(** The document of the end-to-end scenario. *)
Definition podWeb : Node :=
  mapN 1 [ key 1 "apiVersion"; strN 1 "v1";
           key 2 "kind"; strN 2 "Pod";
           key 3 "metadata"; mapN 4 [ key 4 "name"; strN 4 "web" ];
           key 5 "spec";
           mapN 6 [ key 6 "containers"; seqN 7 [ mapN 7 (webContainer 7) ] ] ].

(** [podWeb] with the scalar [42] for [spec]. *)
Definition podScalarSpec : Node :=
  mapN 1 [ key 1 "apiVersion"; strN 1 "v1";
           key 2 "kind"; strN 2 "Pod";
           key 3 "metadata"; mapN 4 [ key 4 "name"; strN 4 "web" ];
           key 5 "spec"; intN 5 "42" ].

(** A document that is a bare scalar. *)
Definition docScalar : Node := strN 1 "pod".

(** [apiVersion: v2] and an empty [containers]. *)
Definition noContainers : Node := seqN 6 [].
Definition specNoContainers : Node := mapN 6 [ key 6 "containers"; noContainers ].
Definition podNoContainers : Node :=
  mapN 1 [ key 1 "apiVersion"; strN 1 "v2";
           key 2 "kind"; strN 2 "Pod";
           key 3 "metadata"; mapN 4 [ key 4 "name"; strN 4 "web" ];
           key 5 "spec"; specNoContainers ].

(** [metadata: {}] and [os: bsd]. *)
Definition metaBsd : Node := mapN 3 [].
Definition specBsd : Node :=
  mapN 5 [ key 5 "os"; strN 5 "bsd";
           key 6 "containers"; seqN 7 [ mapN 7 (webContainer 7) ] ].
Definition podBsd : Node :=
  mapN 1 [ key 1 "apiVersion"; strN 1 "v1";
           key 2 "kind"; strN 2 "Pod";
           key 3 "metadata"; metaBsd;
           key 4 "spec"; specBsd ].

(** [podWeb] with [limits: {cpu: "2"}], the amount written as a quoted
    string. *)
Definition podQuotedCpu : Node :=
  mapN 1 [ key 1 "apiVersion"; strN 1 "v1";
           key 2 "kind"; strN 2 "Pod";
           key 3 "metadata"; mapN 4 [ key 4 "name"; strN 4 "web" ];
           key 5 "spec";
           mapN 6 [ key 6 "containers";
             seqN 7 [ mapN 7
               [ key 7 "name"; strN 7 "web_app";
                 key 8 "image"; strN 8 "registry.bigbrother.io/app:v1";
                 key 9 "resources";
                 mapN 10 [ key 10 "limits"; mapN 11 [ key 11 "cpu"; strN 11 "2" ] ] ] ] ] ].

(** A document with ports, a probe and resource amounts, all valid. *)
Definition podFull : Node :=
  mapN 1 [ key 1 "apiVersion"; strN 1 "v1";
           key 2 "kind"; strN 2 "Pod";
           key 3 "metadata";
           mapN 4 [ key 4 "name"; strN 4 "web";
                    key 5 "labels"; mapN 6 [ key 6 "app"; strN 6 "web" ] ];
           key 7 "spec";
           mapN 8 [ key 8 "os"; strN 8 "linux";
             key 9 "containers";
             seqN 10 [ mapN 10
               [ key 10 "name"; strN 10 "web_app";
                 key 11 "image"; strN 11 "registry.bigbrother.io/app:v1";
                 key 12 "ports";
                 seqN 13 [ mapN 13 [ key 13 "containerPort"; intN 13 "8080";
                                     key 14 "protocol"; strN 14 "tcp" ] ];
                 key 15 "readinessProbe";
                 mapN 16 [ key 16 "httpGet";
                           mapN 17 [ key 17 "path"; strN 17 "/ready";
                                     key 18 "port"; intN 18 "8080" ] ];
                 key 19 "resources";
                 mapN 20 [ key 20 "limits";
                           mapN 21 [ key 21 "cpu"; intN 21 "2";
                                     key 22 "memory"; strN 22 "512Mi" ];
                           key 23 "requests";
                           mapN 24 [ key 24 "cpu"; intN 24 "1";
                                     key 25 "memory"; strN 25 "1Gi" ] ] ] ] ] ].

(** A port entry and a probe, for the bounds. *)
Definition portEntry (text : string) : Node :=
  mapN 3 [ key 3 "containerPort"; intN 3 text ].

Definition probeEntry (portNode : Node) : Node :=
  mapN 3 [ key 3 "httpGet";
           mapN 4 [ key 4 "path"; strN 4 "/healthz"; key 5 "port"; portNode ] ].

Definition ctx0 (f : string) : Accumulate.vctx :=
  {| Accumulate.file := f; Accumulate.errs := [] |}.

(** ** Vocabulary of the further properties *)

(** The test of [field] on a key node. *)
Definition keyIs (key : string) (k : Node) : bool :=
  isScalar k && (Value k =? key)%string.

(** The keys of a mapping that have a value after them. *)
Fixpoint pairedKeys (content : list Node) : list Node :=
  match content with
  | k :: _ :: rest => k :: pairedKeys rest
  | _ => []
  end.

Fixpoint allBytes (p : ascii -> bool) (s : string) : bool :=
  match s with
  | EmptyString => true
  | String c r => p c && allBytes p r
  end.

(** Each segment with an underscore before it. *)
Fixpoint underscored (segs : list string) : string :=
  match segs with
  | [] => EmptyString
  | x :: rest => "_" ++ x ++ underscored rest
  end.

(** A segment of a snake-case name: one or more of [a-z0-9]. *)
Definition segment (x : string) : Prop :=
  x <> EmptyString /\ allBytes isLowerAlnum x = true.

(** A byte below 0x80 that is not white space. *)
Definition isPlain (c : ascii) : bool := (byte c <? RuneSelf) && negb (asciiSpace c).

Definition startsPlain (t : string) : bool :=
  match t with
  | String a _ => isPlain a
  | EmptyString => false
  end.

Fixpoint endsPlain (t : string) : bool :=
  match t with
  | EmptyString => false
  | String a EmptyString => isPlain a
  | String _ r => endsPlain r
  end.

(** The verdict on [os] and on [protocol] for a text of ASCII bytes. *)
Definition osKnown (v : string) : bool :=
  (mapBytes lowerByte v =? "linux")%string || (mapBytes lowerByte v =? "windows")%string.

Definition protocolKnown (v : string) : bool :=
  (mapBytes upperByte v =? "TCP")%string || (mapBytes upperByte v =? "UDP")%string.

(** The nodes of a list that are no string scalars, in their order. *)
Definition notStrings (content : list Node) : list Node :=
  filter (fun x => negb (Accumulate.isStr x)) content.

(** The line [l] written by [main.go] carries the line number of the
    recorded error [e], or none when [e] has none. *)
Definition sameLine (f : string) (e : Accumulate.verr) (l : string) : Prop :=
  exists text : string,
    l = if 0 <? Accumulate.line e
        then (f ++ ":" ++ itoa (Accumulate.line e) ++ " " ++ text ++ nl)%string
        else (f ++ ": " ++ text ++ nl)%string.

(** The rule [m] of [main.go] returns [nil] when the accumulating rule
    [a] records nothing, and otherwise reports, by its line number, the
    error that [a] records first. *)
Definition reportsFirst (f : string)
  (a : Accumulate.vctx -> result Accumulate.vctx) (m : FailFast.M) : Prop :=
  ((forall c, a c = Ok c) /\ (forall s, m s = Ok (None, s)))
  \/ (exists e rest er l,
         sameLine f e l
         /\ (forall c, a c = Ok (extend c (e :: rest)))
         /\ (forall s, m s = Ok (Some er, Fprintf s l))).

(** A port entry whose [containerPort] is the decimal numeral of [p],
    under the tag [t]. *)
Definition numeral (t : string) (l p : Z) : Node := mkNode ScalarNode t (itoa p) l [].

Definition portOf (t : string) (l p : Z) : Node :=
  mapN l [ strN l "containerPort"; numeral t l p ].

(** *** Documents for the further properties *)

Definition blankNameMeta : Node := mapN 4 [ strN 4 "name"; strN 4 "  " ].

Definition intLabel : Node := mapN 6 [ strN 6 "app"; intN 6 "1" ].
Definition labelledMeta : Node :=
  mapN 4 [ strN 4 "name"; strN 4 "web"; strN 5 "labels"; intLabel ].

Definition oneContainer : Node := seqN 7 [ mapN 7 (webContainer 7) ].
Definition specOne : Node := mapN 6 [ strN 6 "containers"; oneContainer ].

(** [podWeb] without [spec]. *)
Definition podNoSpec : Node :=
  mapN 1 [ strN 1 "apiVersion"; strN 1 "v1";
           strN 2 "kind"; strN 2 "Pod";
           strN 3 "metadata"; mapN 4 [ strN 4 "name"; strN 4 "web" ] ].

(** ** Lemmas on text and trees *)

Lemma append_assoc (a b c : string) : ((a ++ b) ++ c = a ++ (b ++ c))%string.
Proof. induction a as [|x a IH]; simpl; [reflexivity | now rewrite IH]. Qed.

Lemma append_nil_r (a : string) : (a ++ "" = a)%string.
Proof. induction a as [|x a IH]; simpl; [reflexivity | now rewrite IH]. Qed.

Lemma pairs_ind (A : Type) (P : list A -> Prop) :
  P [] ->
  (forall k v rest, Nat.even (List.length rest) = true -> P rest -> P (k :: v :: rest)) ->
  forall l, Nat.even (List.length l) = true -> P l.
Proof.
  intros Hnil Hstep.
  fix IH 1.
  intros [|k [|v rest]] Hev.
  - exact Hnil.
  - discriminate Hev.
  - apply Hstep; [exact Hev | apply IH; exact Hev].
Qed.

Lemma parsed_inv (n : Node) :
  parsed n = true ->
  0 < Line n
  /\ (isMapping n = true -> Nat.even (List.length (Content n)) = true)
  /\ (forall c, In c (Content n) -> parsed c = true).
Proof.
  destruct n as [k t v l c]; simpl.
  intros Hp.
  apply andb_true_iff in Hp as [Hp Hc].
  apply andb_true_iff in Hp as [Hl Hm].
  repeat split.
  - now apply Z.ltb_lt.
  - unfold isMapping; simpl. intros Hk. rewrite Hk in Hm. exact Hm.
  - intros x Hx. rewrite forallb_forall in Hc. now apply Hc.
Qed.

Lemma good_root (doc : Node) : parsed doc = true -> good doc doc.
Proof. intros Hp; split; [constructor | exact Hp]. Qed.

Lemma good_child (doc n c : Node) : good doc n -> In c (Content n) -> good doc c.
Proof.
  intros [Hs Hp] Hin; split.
  - eapply sub_child; eauto.
  - now apply (parsed_inv n Hp).
Qed.

Lemma good_line (doc n : Node) : good doc n -> 0 < Line n.
Proof. intros [_ Hp]. now apply (parsed_inv n Hp). Qed.

Lemma fieldLoop_found (content : list Node) (key : string) (v : Node) :
  fieldLoop content key = Ok (Some v) -> In v content.
Proof.
  revert content. fix IH 1.
  intros [|k [|v' rest]]; simpl; try discriminate.
  destruct (isScalar k && (Value k =? key)%string).
  - intros [= ->]. right; now left.
  - intros Hf. right; right. now apply IH.
Qed.

Lemma fieldLoop_total (content : list Node) (key : string) :
  Nat.even (List.length content) = true ->
  exists o, fieldLoop content key = Ok o.
Proof.
  revert content.
  apply (pairs_ind _ (fun c => exists o, fieldLoop c key = Ok o)).
  - now exists None.
  - intros k v rest _ IH. simpl.
    destruct (isScalar k && (Value k =? key)%string); [now eexists | exact IH].
Qed.

Lemma field_found (n : Node) (key : string) (v : Node) :
  field n key = Ok (Some v) -> In v (Content n).
Proof.
  unfold field. destruct (negb (isMapping n)); [discriminate |].
  apply fieldLoop_found.
Qed.

Lemma field_cases (doc n : Node) (key : string) :
  good doc n ->
  field n key = Ok None \/ exists v, field n key = Ok (Some v) /\ good doc v.
Proof.
  intros Hg.
  assert (Ht : exists o, field n key = Ok o).
  { unfold field. destruct (isMapping n) eqn:Hm; simpl; [|now eexists].
    apply fieldLoop_total. destruct Hg as [_ Hp]. now apply (parsed_inv n Hp). }
  destruct Ht as [[v|] Hf]; [right | now left].
  exists v; split; [exact Hf |].
  eapply good_child; [exact Hg | now apply field_found with key].
Qed.

Lemma field_not_mapping (n : Node) (key : string) :
  isMapping n = false -> field n key = Ok None.
Proof. unfold field. now intros ->. Qed.

(** ** The relation between the two variants, rule by rule *)

Section Rules.
Context `{U : Unicode}.
Variable strict : bool.
Variable f : string.
Variable doc : Node.

Lemma add_extend c l m : Accumulate.add c l m = extend c [verrOf l m].
Proof. reflexivity. Qed.

Lemma addRequired_extend c k :
  Accumulate.addRequired c k = extend c [verrOf 0 (k ++ " is required")].
Proof. reflexivity. Qed.

Lemma extend_nil c : extend c [] = c.
Proof. destruct c; unfold extend; simpl. now rewrite app_nil_r. Qed.

Lemma extend_app c a b : extend (extend c a) b = extend c (a ++ b).
Proof. unfold extend; simpl. now rewrite app_assoc. Qed.

Lemma fail_line l t s :
  0 < l ->
  FailFast.fail f l t s
  = Ok (Some "validation failed", Fprintf s (f ++ ":" ++ itoa l ++ " " ++ t ++ nl)).
Proof.
  intros Hl. unfold FailFast.fail, FailFast.fprintfErr.
  apply Z.ltb_lt in Hl. now rewrite Hl.
Qed.

Lemma rel_ext a a' m m' :
  (forall c, a c = a' c) -> (forall s, m s = m' s) ->
  rel strict f doc a' m' -> rel strict f doc a m.
Proof.
  intros Ha Hm (new & Hex & Hnew & Hcase).
  exists new; split; [exact Hex | split].
  - intros c. now rewrite Ha.
  - destruct Hcase as [[Hp Hs] | (e & l & Hl & Hw & Hs)].
    + left; split; [intros s; now rewrite Hm | exact Hs].
    + right; exists e, l; repeat split; [exact Hl | intros s; now rewrite Hm | exact Hs].
Qed.

Lemma rel_ok_ok : rel strict f doc (fun c => Ok c) FailFast.pass.
Proof.
  exists []; split; [constructor | split].
  - intros c. now rewrite extend_nil.
  - left; split; [reflexivity | reflexivity].
Qed.

Lemma rel_err_err e l er a (m : FailFast.M) :
  explained doc e -> explainedLine f doc l ->
  (forall c, a c = Ok (extend c [e])) ->
  (forall s, m s = Ok (Some er, Fprintf s l)) ->
  rel strict f doc a m.
Proof.
  intros He Hl Ha Hm. exists [e]; split; [now constructor | split; [exact Ha |]].
  right; exists er, l; repeat split; [exact Hl | exact Hm | discriminate].
Qed.

Lemma rel_violation n n' tA tF :
  good doc n -> good doc n' ->
  rel strict f doc (fun c => Ok (Accumulate.add c (Line n) tA))
                   (FailFast.fail f (Line n') tF).
Proof.
  intros Hg Hg'. pose proof (good_line _ _ Hg) as Hl. destruct Hg as [Hs _].
  pose proof (good_line _ _ Hg') as Hl'. destruct Hg' as [Hs' _].
  eapply rel_err_err with (e := verrOf (Line n) tA).
  - now apply ex_violation.
  - now apply exl_violation with (n := n') (text := tF).
  - reflexivity.
  - intros s. now apply fail_line.
Qed.

Lemma rel_missing m key pre fld :
  subnode m doc -> field m key = Ok None -> fld = (pre ++ key)%string ->
  rel strict f doc (fun c => Ok (Accumulate.addRequired c key))
                   (FailFast.failRequired f fld).
Proof.
  intros Hs Hf ->.
  eapply rel_err_err with (e := verrOf 0 (key ++ " is required")).
  - now apply ex_missing with (m := m).
  - now apply exl_missing with (m := m) (key := key) (pre := pre).
  - reflexivity.
  - reflexivity.
Qed.

Lemma rel_bind a1 a2 m1 m2 :
  rel strict f doc a1 m1 -> rel strict f doc a2 m2 ->
  rel strict f doc (fun c => c1 <- a1 c ;; a2 c1) (FailFast.andThen m1 m2).
Proof.
  intros (n1 & He1 & Ha1 & H1) (n2 & He2 & Ha2 & H2).
  exists (n1 ++ n2)%list; split; [now apply Forall_app | split].
  - intros c. rewrite Ha1; simpl. rewrite Ha2. now rewrite extend_app.
  - unfold FailFast.andThen.
    destruct H1 as [[Hp1 Hs1] | (e1 & l1 & Hl1 & Hw1 & Hs1)].
    + destruct H2 as [[Hp2 Hs2] | (e2 & l2 & Hl2 & Hw2 & Hs2)].
      * left; split.
        -- intros s. rewrite Hp1. apply Hp2.
        -- intros Hst. rewrite (Hs1 Hst), (Hs2 Hst). reflexivity.
      * right; exists e2, l2; repeat split; [exact Hl2 | |].
        -- intros s. rewrite Hp1. apply Hw2.
        -- intros Hst. rewrite (Hs1 Hst). simpl. now apply Hs2.
    + right; exists e1, l1; repeat split; [exact Hl1 | |].
      * intros s. now rewrite Hw1.
      * intros Hst Happ. apply app_eq_nil in Happ as [Hn1 _]. now apply (Hs1 Hst).
Qed.

End Rules.

Section Loose.
Context `{U : Unicode}.
Variable f : string.
Variable doc : Node.

Lemma rel_weaken strict a m : rel true f doc a m -> rel strict f doc a m.
Proof.
  intros (new & Hex & Ha & Hcase). exists new; split; [exact Hex | split; [exact Ha |]].
  destruct Hcase as [[Hp Hs] | (e & l & Hl & Hw & Hs)].
  - left; split; [exact Hp | intros _; now apply Hs].
  - right; exists e, l; repeat split; [exact Hl | exact Hw | intros _; now apply Hs].
Qed.

Lemma rel_loose_err_ok n tA :
  good doc n ->
  rel false f doc (fun c => Ok (Accumulate.add c (Line n) tA)) FailFast.pass.
Proof.
  intros Hg. pose proof (good_line _ _ Hg) as Hl. destruct Hg as [Hs _].
  exists [verrOf (Line n) tA]; split; [constructor; [now apply ex_violation | constructor] |].
  split; [reflexivity |].
  left; split; [reflexivity | discriminate].
Qed.

Lemma rel_loose_ok_err n tF :
  good doc n ->
  rel false f doc (fun c => Ok c) (FailFast.fail f (Line n) tF).
Proof.
  intros Hg. pose proof (good_line _ _ Hg) as Hl. destruct Hg as [Hs _].
  exists []; split; [constructor | split].
  - intros c. now rewrite extend_nil.
  - right; exists "validation failed"%string, (f ++ ":" ++ itoa (Line n) ++ " " ++ tF ++ nl)%string.
    repeat split; [now apply exl_violation | | discriminate].
    intros s. now apply fail_line.
Qed.

End Loose.

(** *** Facts on the library functions *)

Lemma notStr_isStr (n : Node) : FailFast.notStr n = negb (Accumulate.isStr n).
Proof. unfold FailFast.notStr, Accumulate.isStr. now rewrite negb_andb. Qed.

Lemma alnum_plain (c : ascii) :
  isLowerAlnum c = true -> (RuneSelf <=? byte c) = false /\ asciiSpace c = false.
Proof.
  unfold isLowerAlnum, isLowerByte, isDigit, asciiSpace, RuneSelf.
  intros Hc.
  assert (Hr : 97 <= byte c <= 122 \/ 48 <= byte c <= 57) by lia.
  split; [lia |].
  cbv zeta. lia.
Qed.

Lemma underscore_plain (c : ascii) :
  Ascii.eqb c "_" = true -> (RuneSelf <=? byte c) = false /\ asciiSpace c = false.
Proof.
  intros Hc. apply Ascii.eqb_eq in Hc. subst c. split; reflexivity.
Qed.

Lemma snake_scanRight (s : string) (seen : bool) :
  snakeFrom seen s = true ->
  match s with
  | EmptyString => seen = true
  | String _ _ => scanRight s = Stop s
  end.
Proof.
  revert seen. induction s as [|c r IH]; intros seen; simpl.
  - now intros ->.
  - destruct (isLowerAlnum c) eqn:Hc.
    + intros Hr. specialize (IH true Hr).
      destruct (alnum_plain c Hc) as [H1 H2].
      destruct r as [|c' r'].
      * simpl. now rewrite H1, H2.
      * now rewrite IH.
    + destruct (Ascii.eqb c "_") eqn:Hu; [|discriminate].
      intros Hr. apply andb_true_iff in Hr as [_ Hr].
      specialize (IH false Hr).
      destruct r as [|c' r']; [discriminate IH |].
      now rewrite IH.
Qed.

Lemma snake_trim `{U : Unicode} (v : string) :
  snakeMatch v = true -> TrimSpace v = v /\ v <> ""%string.
Proof.
  unfold snakeMatch. intros Hs.
  pose proof (snake_scanRight v false Hs) as Hr.
  destruct v as [|c r]; [discriminate Hr |].
  split; [|discriminate].
  unfold TrimSpace.
  assert (Hl : scanLeft (String c r) = Stop (String c r)).
  { simpl in Hs |- *. destruct (isLowerAlnum c) eqn:Hc.
    - destruct (alnum_plain c Hc) as [H1 H2]. now rewrite H1, H2.
    - destruct (Ascii.eqb c "_"); discriminate Hs. }
  now rewrite Hl, Hr.
Qed.

Lemma existsByte_lastIndex (s : string) (c : ascii) :
  existsByte (Ascii.eqb c) s = true -> 0 <= LastIndexByte s c.
Proof.
  induction s as [|x r IH]; simpl; [discriminate |].
  intros Hx.
  destruct (0 <=? LastIndexByte r c) eqn:Hr.
  - apply Z.leb_le in Hr. lia.
  - apply Z.leb_gt in Hr.
    apply orb_true_iff in Hx as [Hx | Hx].
    + rewrite Ascii.eqb_sym in Hx. rewrite Hx. lia.
    + specialize (IH Hx). lia.
Qed.

Lemma prefix_exists (s pre : string) (p : ascii -> bool) :
  HasPrefix s pre = true -> existsByte p pre = true -> existsByte p s = true.
Proof.
  revert s. induction pre as [|x pre IH]; intros s; simpl; [discriminate |].
  destruct s as [|y s]; [discriminate |].
  intros Hp Hx. apply andb_true_iff in Hp as [Hy Hp].
  apply Ascii.eqb_eq in Hy. subst y. simpl.
  apply orb_true_iff in Hx as [Hx | Hx].
  - now rewrite Hx.
  - rewrite (IH s Hp Hx). now rewrite orb_true_r.
Qed.

Lemma registry_slash (v : string) :
  HasPrefix v "registry.bigbrother.io/" = true ->
  (LastIndexByte v "/" =? -1) = false.
Proof.
  intros Hp. apply Z.eqb_neq.
  assert (0 <= LastIndexByte v "/"); [|lia].
  apply existsByte_lastIndex.
  eapply prefix_exists; [exact Hp | reflexivity].
Qed.

(** *** The library functions on sample texts *)

Example snake_samples :
  snakeMatch "web_app" = true /\ snakeMatch "a1_2b_c" = true
  /\ snakeMatch "WebApp" = false /\ snakeMatch "a__b" = false
  /\ snakeMatch "_a" = false /\ snakeMatch "a_" = false /\ snakeMatch "" = false.
Proof. repeat split; reflexivity. Qed.

Example mem_samples :
  memMatch "512Mi" = true /\ memMatch "2Gi" = true /\ memMatch "1Ki" = true
  /\ memMatch "512" = false /\ memMatch "512MB" = false
  /\ memMatch "Mi" = false /\ memMatch "1.5Gi" = false /\ memMatch "5KiMi" = false.
Proof. repeat split; reflexivity. Qed.

Example atoi_samples :
  Atoi "80" = Some 80 /\ Atoi "+80" = Some 80 /\ Atoi "-1" = Some (-1)
  /\ Atoi "" = None /\ Atoi "-" = None /\ Atoi "0x10" = None /\ Atoi "1_0" = None
  /\ Atoi "9223372036854775807" = Some maxInt /\ Atoi "9223372036854775808" = None.
Proof. repeat split; reflexivity. Qed.

Example trim_samples `{U : Unicode} :
  TrimSpace "  a b  " = "a b"%string /\ TrimSpace "   " = ""%string
  /\ TrimSpace " 80 " = "80"%string /\ ToLower "LiNuX" = "linux"%string
  /\ ToUpper "tcp" = "TCP"%string.
Proof. repeat split; reflexivity. Qed.

Example itoa_samples :
  itoa 0 = "0"%string /\ itoa 7 = "7"%string /\ itoa 100 = "100"%string
  /\ itoa 65536 = "65536"%string /\ itoa (-12) = "-12"%string.
Proof. repeat split; reflexivity. Qed.

(** *** The rules, from the leaves up *)

Ltac open_field Hg key :=
  let Hf := fresh "Hf" in
  let v := fresh "v" in
  let Hv := fresh "Hv" in
  unfold FailFast.withField, FailFast.getField;
  destruct (field_cases _ _ key Hg) as [Hf | (v & Hf & Hv)];
  rewrite Hf; cbn [bind].

Ltac leaf :=
  first
    [ apply rel_ok_ok
    | apply rel_violation; assumption
    | apply rel_weaken; apply rel_ok_ok
    | apply rel_weaken; apply rel_violation; assumption ].

Section RulePairs.
Context `{U : Unicode}.
Variable f : string.
Variable doc : Node.

Lemma rel_probePath strict hg pre :
  good doc hg ->
  rel strict f doc (fun c => Accumulate.probePath c hg) (FailFast.probePath f hg pre).
Proof.
  intros Hg. unfold Accumulate.probePath, FailFast.probePath.
  open_field Hg "path"%string.
  - apply rel_missing with (m := hg) (pre := (pre ++ ".httpGet.")%string);
      [apply Hg | exact Hf | now rewrite append_assoc].
  - rewrite notStr_isStr.
    destruct (Accumulate.isStr v); cbn [negb]; [|leaf].
    destruct (HasPrefix (Value v) "/"); cbn [negb]; leaf.
Qed.

Lemma rel_probePort strict hg pre :
  good doc hg ->
  rel strict f doc (fun c => Accumulate.probePort c hg) (FailFast.probePort f hg pre).
Proof.
  intros Hg. unfold Accumulate.probePort, FailFast.probePort.
  open_field Hg "port"%string.
  - apply rel_missing with (m := hg) (pre := (pre ++ ".httpGet.")%string);
      [apply Hg | exact Hf | now rewrite append_assoc].
  - unfold Accumulate.asInt, FailFast.toInt.
    destruct (isScalar v); cbn [negb]; [|leaf].
    destruct (Atoi (TrimSpace (Value v))) as [p|]; [|leaf].
    destruct ((p <=? 0) || (65536 <=? p)); leaf.
Qed.

Lemma rel_validateProbe strict n key :
  good doc n ->
  rel strict f doc (fun c => Accumulate.validateProbe c n key)
                   (FailFast.validateProbe f n ("containers." ++ key)).
Proof.
  intros Hg. unfold Accumulate.validateProbe, FailFast.validateProbe.
  destruct (isMapping n); cbn [negb]; [|leaf].
  open_field Hg "httpGet"%string.
  - apply rel_missing with (m := n) (pre := ("containers." ++ key ++ ".")%string);
      [apply Hg | exact Hf |].
    simpl. now rewrite append_assoc.
  - destruct (isMapping v); cbn [negb]; [|leaf].
    apply rel_bind; [now apply rel_probePath | now apply rel_probePort].
Qed.

Lemma rel_portNumber strict cp :
  good doc cp ->
  rel strict f doc (fun c => Ok (Accumulate.portNumber c cp)) (FailFast.portNumber f cp).
Proof.
  intros Hv. unfold Accumulate.portNumber, FailFast.portNumber.
  unfold Accumulate.asInt, FailFast.toInt.
  destruct (isScalar cp); cbn [negb]; [|leaf].
  destruct (Atoi (TrimSpace (Value cp))) as [p|]; [|leaf].
  destruct ((p <=? 0) || (65536 <=? p)); leaf.
Qed.

Lemma rel_portProtocol strict n :
  good doc n ->
  rel strict f doc (fun c => Accumulate.portProtocol c n) (FailFast.portProtocol f n).
Proof.
  intros Hg. unfold Accumulate.portProtocol, FailFast.portProtocol.
  open_field Hg "protocol"%string; [leaf |].
  rewrite notStr_isStr.
  destruct (Accumulate.isStr v); cbn [negb]; [|leaf].
  cbv zeta.
  destruct ((ToUpper (Value v) =? "TCP")%string || (ToUpper (Value v) =? "UDP")%string); leaf.
Qed.

Lemma rel_validateContainerPort strict n :
  good doc n ->
  rel strict f doc (fun c => Accumulate.validateContainerPort c n)
                   (FailFast.validateContainerPort f n).
Proof.
  intros Hg. unfold Accumulate.validateContainerPort, FailFast.validateContainerPort.
  destruct (isMapping n); cbn [negb]; [|leaf].
  open_field Hg "containerPort"%string.
  - apply rel_missing with (m := n) (pre := "containers.ports."%string);
      [apply Hg | exact Hf | reflexivity].
  - apply (rel_bind strict f doc (fun c => Ok (Accumulate.portNumber c v))
             (fun c => Accumulate.portProtocol c n)).
    + now apply rel_portNumber.
    + now apply rel_portProtocol.
Qed.


Lemma rel_rrEntry strict pre k v :
  good doc k -> good doc v ->
  (strict = true -> entryAgree k v = true) ->
  rel strict f doc (fun c => Ok (Accumulate.rrEntry c k v)) (FailFast.rrEntry f pre k v).
Proof.
  intros Hk Hv Hag.
  unfold Accumulate.rrEntry, FailFast.rrEntry, entryAgree in *.
  rewrite notStr_isStr in *. unfold FailFast.toInt in *.
  destruct strict.
  - specialize (Hag eq_refl).
    destruct (Accumulate.isStr k); [|discriminate Hag].
    cbn [negb andb] in *.
    destruct (Value k =? "cpu")%string; cbn [negb orb] in *.
    + destruct (Accumulate.isInt v), (isScalar v);
        try destruct (Atoi (TrimSpace (Value v)));
        cbn [negb andb Bool.eqb] in *; try discriminate Hag; leaf.
    + destruct (Value k =? "memory")%string; [|leaf].
      rewrite notStr_isStr.
      destruct (Accumulate.isStr v); cbn [negb]; [|leaf].
      destruct (memMatch (Value v)); cbn [negb]; leaf.
  - clear Hag.
    destruct (Accumulate.isStr k); cbn [negb].
    + destruct (Value k =? "cpu")%string.
      * destruct (Accumulate.isInt v), (isScalar v);
          try destruct (Atoi (TrimSpace (Value v)));
          cbn [negb];
          first [ leaf | now apply rel_loose_err_ok | now apply rel_loose_ok_err ].
      * destruct (Value k =? "memory")%string; [|leaf].
        rewrite notStr_isStr.
        destruct (Accumulate.isStr v); cbn [negb]; [|leaf].
        destruct (memMatch (Value v)); cbn [negb]; leaf.
    + destruct (Value k =? "cpu")%string.
      * destruct (Accumulate.isInt v); cbn [negb];
          first [ leaf | now apply rel_loose_ok_err ].
      * destruct (Value k =? "memory")%string; [|now apply rel_loose_ok_err].
        destruct (Accumulate.isStr v); cbn [negb]; [|leaf].
        destruct (memMatch (Value v)); cbn [negb];
          first [ leaf | now apply rel_loose_ok_err ].
Qed.

Lemma rel_rrLoop strict pre content :
  Nat.even (List.length content) = true ->
  (forall x, In x content -> good doc x) ->
  (strict = true -> rrAgree content = true) ->
  rel strict f doc (fun c => Accumulate.rrLoop c content) (FailFast.rrLoop f pre content).
Proof.
  intros Hev. revert content Hev.
  apply (pairs_ind _ (fun content =>
    (forall x, In x content -> good doc x) ->
    (strict = true -> rrAgree content = true) ->
    rel strict f doc (fun c => Accumulate.rrLoop c content)
                     (FailFast.rrLoop f pre content))).
  - intros _ _. apply rel_ok_ok.
  - intros k v rest _ IH Hin Hag.
    apply (rel_bind strict f doc (fun c => Ok (Accumulate.rrEntry c k v))
             (fun c => Accumulate.rrLoop c rest)).
    + apply rel_rrEntry; [apply Hin; now left | apply Hin; right; now left |].
      intros Hs. specialize (Hag Hs). simpl in Hag.
      now apply andb_true_iff in Hag.
    + apply IH.
      * intros x Hx. apply Hin. right; now right.
      * intros Hs. specialize (Hag Hs). simpl in Hag.
        now apply andb_true_iff in Hag.
Qed.

Lemma rel_validateRRSet strict pre n :
  good doc n ->
  (strict = true -> negb (isMapping n) || rrAgree (Content n) = true) ->
  rel strict f doc (fun c => Accumulate.validateRRSet c n) (FailFast.validateRRSet f n pre).
Proof.
  intros Hg Hag. unfold Accumulate.validateRRSet, FailFast.validateRRSet.
  destruct (isMapping n) eqn:Hm; cbn [negb]; [|leaf].
  apply rel_rrLoop.
  - destruct Hg as [_ Hp]. now apply (parsed_inv n Hp).
  - intros x Hx. now apply good_child with n.
  - exact Hag.
Qed.

Lemma rel_resourcesSet strict n key :
  good doc n ->
  (strict = true -> setAgree n key = true) ->
  rel strict f doc (fun c => Accumulate.resourcesSet key c n)
                   (FailFast.resourcesSet f n key).
Proof.
  intros Hg Hag. unfold Accumulate.resourcesSet, FailFast.resourcesSet, setAgree in *.
  open_field Hg key; [leaf |].
  rewrite Hf in Hag. now apply rel_validateRRSet.
Qed.

Lemma rel_validateResources strict n :
  good doc n ->
  (strict = true -> setAgree n "limits" && setAgree n "requests" = true) ->
  rel strict f doc (fun c => Accumulate.validateResources c n)
                   (FailFast.validateResources f n).
Proof.
  intros Hg Hag. unfold Accumulate.validateResources, FailFast.validateResources.
  destruct (isMapping n); cbn [negb]; [|leaf].
  apply (rel_bind strict f doc (fun c => Accumulate.resourcesSet "limits" c n)
           (fun c => Accumulate.resourcesSet "requests" c n)).
  - apply rel_resourcesSet; [exact Hg |].
    intros Hs. specialize (Hag Hs). now apply andb_true_iff in Hag.
  - apply rel_resourcesSet; [exact Hg |].
    intros Hs. specialize (Hag Hs). now apply andb_true_iff in Hag.
Qed.

Lemma rel_containerName strict n :
  good doc n ->
  rel strict f doc (fun c => Accumulate.containerName c n) (FailFast.containerName f n).
Proof.
  intros Hg. unfold Accumulate.containerName, FailFast.containerName.
  open_field Hg "name"%string.
  - apply rel_missing with (m := n) (pre := "containers."%string);
      [apply Hg | exact Hf | reflexivity].
  - rewrite notStr_isStr.
    destruct (Accumulate.isStr v); cbn [negb]; [|leaf].
    destruct (snakeMatch (Value v)) eqn:Hs; cbn [negb].
    + destruct (snake_trim (Value v) Hs) as [Ht Hne]. rewrite Ht.
      apply String.eqb_neq in Hne. rewrite Hne. leaf.
    + destruct (TrimSpace (Value v) =? "")%string; leaf.
Qed.

Lemma rel_containerImage strict n :
  good doc n ->
  rel strict f doc (fun c => Accumulate.containerImage c n) (FailFast.containerImage f n).
Proof.
  intros Hg. unfold Accumulate.containerImage, FailFast.containerImage.
  open_field Hg "image"%string.
  - apply rel_missing with (m := n) (pre := "containers."%string);
      [apply Hg | exact Hf | reflexivity].
  - rewrite notStr_isStr.
    destruct (Accumulate.isStr v); cbn [negb]; [|leaf].
    destruct (HasPrefix (Value v) "registry.bigbrother.io/") eqn:Hp; cbn [negb]; [|leaf].
    cbv zeta. rewrite (registry_slash _ Hp). cbn [orb].
    destruct (ContainsByte (sliceFrom (Value v) (LastIndexByte (Value v) "/" + 1)) ":");
      cbn [negb]; leaf.
Qed.

Lemma rel_portsLoop strict ps :
  (forall x, In x ps -> good doc x) ->
  rel strict f doc (fun c => Accumulate.portsLoop c ps) (FailFast.portsLoop f ps).
Proof.
  induction ps as [|p rest IH]; intros Hin.
  - apply rel_ok_ok.
  - apply (rel_bind strict f doc (fun c => Accumulate.validateContainerPort c p)
             (fun c => Accumulate.portsLoop c rest)).
    + apply rel_validateContainerPort. apply Hin. now left.
    + apply IH. intros x Hx. apply Hin. now right.
Qed.

Lemma rel_containerPorts strict n :
  good doc n ->
  rel strict f doc (fun c => Accumulate.containerPorts c n) (FailFast.containerPorts f n).
Proof.
  intros Hg. unfold Accumulate.containerPorts, FailFast.containerPorts.
  open_field Hg "ports"%string; [leaf |].
  destruct (isSequence v); cbn [negb]; [|leaf].
  apply rel_portsLoop. intros x Hx. now apply good_child with v.
Qed.

Lemma rel_containerProbe strict n key :
  good doc n ->
  rel strict f doc (fun c => Accumulate.containerProbe key c n)
                   (FailFast.containerProbe f n key).
Proof.
  intros Hg. unfold Accumulate.containerProbe, FailFast.containerProbe.
  open_field Hg key; [leaf |].
  now apply rel_validateProbe.
Qed.

Lemma rel_containerResources strict n :
  good doc n ->
  (strict = true -> containerAgree n = true) ->
  rel strict f doc (fun c => Accumulate.containerResources c n)
                   (FailFast.containerResources f n).
Proof.
  intros Hg Hag. unfold Accumulate.containerResources, FailFast.containerResources, containerAgree in *.
  open_field Hg "resources"%string.
  - apply rel_missing with (m := n) (pre := "containers."%string);
      [apply Hg | exact Hf | reflexivity].
  - rewrite Hf in Hag. now apply rel_validateResources.
Qed.

Lemma rel_validateContainer strict n :
  good doc n ->
  (strict = true -> containerAgree n = true) ->
  rel strict f doc (fun c => Accumulate.validateContainer c n)
                   (FailFast.validateContainer f n).
Proof.
  intros Hg Hag. unfold Accumulate.validateContainer, FailFast.validateContainer.
  destruct (isMapping n); cbn [negb]; [|leaf].
  apply (rel_bind strict f doc (fun c => Accumulate.containerName c n));
    [now apply rel_containerName |].
  apply (rel_bind strict f doc (fun c => Accumulate.containerImage c n));
    [now apply rel_containerImage |].
  apply (rel_bind strict f doc (fun c => Accumulate.containerPorts c n));
    [now apply rel_containerPorts |].
  apply (rel_bind strict f doc (fun c => Accumulate.containerProbe "readinessProbe" c n));
    [now apply rel_containerProbe |].
  apply (rel_bind strict f doc (fun c => Accumulate.containerProbe "livenessProbe" c n));
    [now apply rel_containerProbe |].
  now apply rel_containerResources.
Qed.

Lemma rel_containersLoop strict cs :
  (forall x, In x cs -> good doc x) ->
  (strict = true -> forallb containerAgree cs = true) ->
  rel strict f doc (fun c => Accumulate.containersLoop c cs) (FailFast.containersLoop f cs).
Proof.
  induction cs as [|x rest IH]; intros Hin Hag.
  - apply rel_ok_ok.
  - apply (rel_bind strict f doc (fun c => Accumulate.validateContainer c x)
             (fun c => Accumulate.containersLoop c rest)).
    + apply rel_validateContainer; [apply Hin; now left |].
      intros Hs. specialize (Hag Hs). simpl in Hag. now apply andb_true_iff in Hag.
    + apply IH; [intros y Hy; apply Hin; now right |].
      intros Hs. specialize (Hag Hs). simpl in Hag. now apply andb_true_iff in Hag.
Qed.

Lemma rel_specContainers strict n :
  good doc n ->
  (strict = true -> specAgree n = true) ->
  rel strict f doc (fun c => Accumulate.validateSpecContainers c n)
                   (FailFast.specContainers f n).
Proof.
  intros Hg Hag. unfold Accumulate.validateSpecContainers, FailFast.specContainers, specAgree in *.
  open_field Hg "containers"%string.
  - apply rel_missing with (m := n) (pre := "spec."%string);
      [apply Hg | exact Hf | reflexivity].
  - rewrite Hf in Hag. cbn [found] in Hag.
    destruct (isSequence v); cbn [negb orb] in *; [|leaf].
    assert (Hin : forall x, In x (Content v) -> good doc x)
      by (intros x Hx; now apply good_child with v).
    destruct (Content v) as [|x rest]; [leaf |].
    now apply rel_containersLoop.
Qed.

Lemma rel_specOs strict n :
  good doc n -> isMapping n = true ->
  rel strict f doc (fun c => Accumulate.validateSpec c n) (FailFast.specOs f n).
Proof.
  intros Hg Hm. unfold Accumulate.validateSpec, FailFast.specOs.
  rewrite Hm; cbn [negb].
  open_field Hg "os"%string; [leaf |].
  rewrite notStr_isStr.
  destruct (Accumulate.isStr v); cbn [negb]; [|leaf].
  cbv zeta.
  destruct ((ToLower (Value v) =? "linux")%string || (ToLower (Value v) =? "windows")%string);
    leaf.
Qed.

End RulePairs.

Section TopRules.
Context `{U : Unicode}.
Variable f : string.
Variable doc : Node.

(** The accumulating variant runs two rules in one order, [main.go] in
    the other. *)
Lemma rel_bind_swap strict a1 a2 m1 m2 :
  rel strict f doc a1 m1 -> rel strict f doc a2 m2 ->
  rel strict f doc (fun c => c1 <- a1 c ;; a2 c1) (FailFast.andThen m2 m1).
Proof.
  intros (n1 & He1 & Ha1 & H1) (n2 & He2 & Ha2 & H2).
  exists (n1 ++ n2)%list; split; [now apply Forall_app | split].
  - intros c. rewrite Ha1; simpl. rewrite Ha2. now rewrite extend_app.
  - unfold FailFast.andThen.
    destruct H2 as [[Hp2 Hs2] | (e2 & l2 & Hl2 & Hw2 & Hs2)].
    + destruct H1 as [[Hp1 Hs1] | (e1 & l1 & Hl1 & Hw1 & Hs1)].
      * left; split.
        -- intros s. rewrite Hp2. apply Hp1.
        -- intros Hst. rewrite (Hs1 Hst), (Hs2 Hst). reflexivity.
      * right; exists e1, l1; repeat split; [exact Hl1 | |].
        -- intros s. rewrite Hp2. apply Hw1.
        -- intros Hst Happ. apply app_eq_nil in Happ as [Hn1 _]. now apply (Hs1 Hst).
    + right; exists e2, l2; repeat split; [exact Hl2 | |].
      * intros s. now rewrite Hw2.
      * intros Hst Happ. apply app_eq_nil in Happ as [_ Hn2]. now apply (Hs2 Hst).
Qed.

(** One more recorded error after a rule that [main.go] has already
    failed. *)
Lemma rel_bind_tail strict a m e a3 :
  rel strict f doc a m ->
  (forall s, m s <> Ok (None, s)) ->
  explained doc e ->
  (forall c, a3 c = Ok (extend c [e])) ->
  rel strict f doc (fun c => c1 <- a c ;; a3 c1) m.
Proof.
  intros (n1 & He1 & Ha1 & H1) Hfail He Ha3.
  exists (n1 ++ [e])%list; split; [apply Forall_app; split; [exact He1 | now constructor] |].
  split.
  - intros c. rewrite Ha1; simpl. rewrite Ha3. now rewrite extend_app.
  - destruct H1 as [[Hp1 _] | (e1 & l1 & Hl1 & Hw1 & Hs1)].
    + exfalso. apply (Hfail []). apply Hp1.
    + right; exists e1, l1; repeat split; [exact Hl1 | exact Hw1 |].
      intros _ Happ. apply app_eq_nil in Happ as [_ Hn]. discriminate Hn.
Qed.

Lemma rel_metadataName strict n :
  good doc n ->
  rel strict f doc (fun c => Accumulate.metadataName c n) (FailFast.metadataName f n).
Proof.
  intros Hg. unfold Accumulate.metadataName, FailFast.metadataName.
  open_field Hg "name"%string.
  - apply rel_missing with (m := n) (pre := "metadata."%string);
      [apply Hg | exact Hf | reflexivity].
  - rewrite notStr_isStr.
    destruct (Accumulate.isStr v); cbn [negb orb]; [|leaf].
    destruct (TrimSpace (Value v) =? "")%string; leaf.
Qed.

Lemma rel_metadataNamespace strict n :
  good doc n ->
  rel strict f doc (fun c => Accumulate.metadataNamespace c n)
                   (FailFast.metadataNamespace f n).
Proof.
  intros Hg. unfold Accumulate.metadataNamespace, FailFast.metadataNamespace.
  open_field Hg "namespace"%string; [leaf |].
  rewrite notStr_isStr.
  destruct (Accumulate.isStr v); cbn [negb]; leaf.
Qed.

Lemma rel_labelsEntry strict k v :
  good doc k -> good doc v ->
  rel strict f doc (fun c => Ok (Accumulate.labelsEntry c k v)) (FailFast.labelsEntry f k v).
Proof.
  intros Hk Hv.
  apply rel_ext with
    (a' := fun c =>
       c1 <- (fun c => Ok (if negb (Accumulate.isStr k)
                           then Accumulate.add c (Line k) "labels key must be string"
                           else c)) c ;;
       (fun c => Ok (if negb (Accumulate.isStr v)
                     then Accumulate.add c (Line v) "labels value must be string"
                     else c)) c1)
    (m' := FailFast.andThen
       (if negb (Accumulate.isStr k)
        then FailFast.fail f (Line k) "metadata.labels key must be string"
        else FailFast.pass)
       (if negb (Accumulate.isStr v)
        then FailFast.fail f (Line v) "metadata.labels value must be string"
        else FailFast.pass)).
  - reflexivity.
  - intros s. unfold FailFast.labelsEntry, FailFast.andThen. rewrite !notStr_isStr.
    destruct (Accumulate.isStr k), (Accumulate.isStr v); reflexivity.
  - apply rel_bind.
    + destruct (Accumulate.isStr k); cbn [negb]; leaf.
    + destruct (Accumulate.isStr v); cbn [negb]; leaf.
Qed.

Lemma rel_labelsLoop strict content :
  Nat.even (List.length content) = true ->
  (forall x, In x content -> good doc x) ->
  rel strict f doc (fun c => Accumulate.labelsLoop c content) (FailFast.labelsLoop f content).
Proof.
  intros Hev. revert content Hev.
  apply (pairs_ind _ (fun content =>
    (forall x, In x content -> good doc x) ->
    rel strict f doc (fun c => Accumulate.labelsLoop c content)
                     (FailFast.labelsLoop f content))).
  - intros _. apply rel_ok_ok.
  - intros k v rest _ IH Hin.
    apply (rel_bind strict f doc (fun c => Ok (Accumulate.labelsEntry c k v))
             (fun c => Accumulate.labelsLoop c rest)).
    + apply rel_labelsEntry; [apply Hin; now left | apply Hin; right; now left].
    + apply IH. intros x Hx. apply Hin. right; now right.
Qed.

Lemma rel_metadataLabels strict n :
  good doc n ->
  rel strict f doc (fun c => Accumulate.metadataLabels c n) (FailFast.metadataLabels f n).
Proof.
  intros Hg. unfold Accumulate.metadataLabels, FailFast.metadataLabels.
  open_field Hg "labels"%string; [leaf |].
  destruct (isMapping v) eqn:Hm; cbn [negb]; [|leaf].
  apply rel_labelsLoop.
  - destruct Hv as [_ Hp]. now apply (parsed_inv v Hp).
  - intros x Hx. now apply good_child with v.
Qed.

Lemma rel_validateMetadata strict n :
  good doc n ->
  rel strict f doc (fun c => Accumulate.validateMetadata c n) (FailFast.validateMetadata f n).
Proof.
  intros Hg. unfold Accumulate.validateMetadata, FailFast.validateMetadata.
  destruct (isMapping n); cbn [negb]; [|leaf].
  apply (rel_bind strict f doc (fun c => Accumulate.metadataName c n));
    [now apply rel_metadataName |].
  apply (rel_bind strict f doc (fun c => Accumulate.metadataNamespace c n));
    [now apply rel_metadataNamespace |].
  now apply rel_metadataLabels.
Qed.

Lemma rel_topApiVersion strict n :
  good doc n ->
  rel strict f doc (fun c => Accumulate.topApiVersion c n) (FailFast.topApiVersion f n).
Proof.
  intros Hg. unfold Accumulate.topApiVersion, FailFast.topApiVersion.
  open_field Hg "apiVersion"%string.
  - apply rel_missing with (m := n) (pre := ""%string); [apply Hg | exact Hf | reflexivity].
  - rewrite notStr_isStr.
    destruct (Accumulate.isStr v); cbn [negb]; [|leaf].
    destruct (Value v =? "v1")%string; cbn [negb]; leaf.
Qed.

Lemma rel_topKind strict n :
  good doc n ->
  rel strict f doc (fun c => Accumulate.topKind c n) (FailFast.topKind f n).
Proof.
  intros Hg. unfold Accumulate.topKind, FailFast.topKind.
  open_field Hg "kind"%string.
  - apply rel_missing with (m := n) (pre := ""%string); [apply Hg | exact Hf | reflexivity].
  - rewrite notStr_isStr.
    destruct (Accumulate.isStr v); cbn [negb]; [|leaf].
    destruct (Value v =? "Pod")%string; cbn [negb]; leaf.
Qed.

Lemma rel_topMetadata strict n :
  good doc n ->
  rel strict f doc (fun c => Accumulate.topMetadata c n) (FailFast.topMetadata f n).
Proof.
  intros Hg. unfold Accumulate.topMetadata, FailFast.topMetadata.
  open_field Hg "metadata"%string.
  - apply rel_missing with (m := n) (pre := ""%string); [apply Hg | exact Hf | reflexivity].
  - now apply rel_validateMetadata.
Qed.

(** The part of [validateTop] after [kind], against [topMetadata] and
    [topSpec] of [main.go]. *)
Lemma rel_topRest strict n :
  good doc n ->
  (strict = true -> resourcesAgree n = true) ->
  rel strict f doc
    (fun c => spec <- field n "spec" ;;
              c <- Accumulate.topSpec c spec ;;
              c <- Accumulate.topMetadata c n ;;
              Accumulate.topContainers c spec)
    (FailFast.andThen (FailFast.topMetadata f n) (FailFast.topSpec f n)).
Proof.
  intros Hg Hag. unfold resourcesAgree in Hag.
  pose proof (rel_topMetadata strict n Hg) as Hmeta.
  unfold FailFast.topSpec, FailFast.withField, FailFast.getField.
  destruct (field_cases doc n "spec" Hg) as [Hf | (spec & Hf & Hspec)];
    rewrite Hf in *; cbn [bind found] in *.
  - (* spec is absent *)
    apply rel_ext with
      (a' := fun c => c1 <- (fun c => Ok (Accumulate.addRequired c "spec")) c ;;
                      Accumulate.topMetadata c1 n)
      (m' := FailFast.andThen (FailFast.topMetadata f n) (FailFast.failRequired f "spec")).
    + intros c. cbn [bind Accumulate.topSpec Accumulate.topContainers].
      now destruct (Accumulate.topMetadata (Accumulate.addRequired c "spec") n).
    + reflexivity.
    + apply rel_bind_swap; [|exact Hmeta].
      apply rel_missing with (m := n) (pre := ""%string); [apply Hg | exact Hf | reflexivity].
  - cbn [Accumulate.topSpec Accumulate.topContainers].
    destruct (isMapping spec) eqn:Hm.
    + (* spec is a mapping: os, metadata, containers *)
      apply rel_ext with
        (a' := fun c => c2 <- (fun c => c1 <- Accumulate.validateSpec c spec ;;
                                        Accumulate.topMetadata c1 n) c ;;
                        Accumulate.validateSpecContainers c2 spec)
        (m' := FailFast.andThen
                 (FailFast.andThen (FailFast.topMetadata f n) (FailFast.specOs f spec))
                 (FailFast.specContainers f spec)).
      * intros c. destruct (Accumulate.validateSpec c spec); reflexivity.
      * intros s. unfold FailFast.validateSpec, FailFast.andThen. rewrite Hm; cbn [negb].
        destruct (FailFast.topMetadata f n s) as [[[e|] s']|]; reflexivity.
      * apply rel_bind; [|now apply rel_specContainers].
        apply rel_bind_swap; [now apply rel_specOs | exact Hmeta].
    + (* spec has another kind: two errors are recorded for it *)
      apply rel_ext with
        (a' := fun c => c2 <- (fun c => c1 <- (fun c => Ok (Accumulate.add c (Line spec)
                                                             "spec must be object")) c ;;
                                        Accumulate.topMetadata c1 n) c ;;
                        (fun c => Ok (Accumulate.addRequired c "containers")) c2)
        (m' := FailFast.andThen (FailFast.topMetadata f n)
                 (FailFast.fail f (Line spec) "spec must be object")).
      * intros c. unfold Accumulate.validateSpec, Accumulate.validateSpecContainers.
        rewrite Hm, (field_not_mapping spec "containers" Hm). cbn [negb bind].
        destruct (Accumulate.topMetadata _ n); reflexivity.
      * intros s. unfold FailFast.validateSpec. rewrite Hm. reflexivity.
      * apply rel_bind_tail with (e := verrOf 0 ("containers" ++ " is required")).
        -- apply rel_bind_swap; [now apply rel_violation | exact Hmeta].
        -- intros s. unfold FailFast.andThen.
           destruct (FailFast.topMetadata f n s) as [[[e|] s']|]; discriminate.
        -- apply ex_missing with (m := spec);
             [apply Hspec | now apply field_not_mapping].
        -- reflexivity.
Qed.

Lemma rel_validateTop strict :
  parsed doc = true ->
  (strict = true -> resourcesAgree doc = true) ->
  rel strict f doc (fun c => Accumulate.validateTop c doc) (FailFast.validateTopLevel f doc).
Proof.
  intros Hp Hag. pose proof (good_root doc Hp) as Hg.
  unfold Accumulate.validateTop, FailFast.validateTopLevel.
  destruct (isMapping doc); cbn [negb]; [|leaf].
  apply (rel_bind strict f doc (fun c => Accumulate.topApiVersion c doc));
    [now apply rel_topApiVersion |].
  apply (rel_bind strict f doc (fun c => Accumulate.topKind c doc));
    [now apply rel_topKind |].
  now apply rel_topRest.
Qed.

End TopRules.

(** *** The rules that run before the check of [containers] *)

Section Before.
Context `{U : Unicode}.
Variable doc : Node.

Lemma records_ok P : records P (fun c => Ok c).
Proof. exists []; split; [constructor | intros c; now rewrite extend_nil]. Qed.

Lemma records_add P l t :
  P (verrOf l t) -> records P (fun c => Ok (Accumulate.add c l t)).
Proof. intros HP. exists [verrOf l t]; split; [now constructor | reflexivity]. Qed.

Lemma records_addRequired P key :
  P (verrOf 0 (key ++ " is required")) ->
  records P (fun c => Ok (Accumulate.addRequired c key)).
Proof.
  intros HP. exists [verrOf 0 (key ++ " is required")]; split; [now constructor | reflexivity].
Qed.

Lemma records_bind P a1 a2 :
  records P a1 -> records P a2 -> records P (fun c => c1 <- a1 c ;; a2 c1).
Proof.
  intros (n1 & H1 & Ha1) (n2 & H2 & Ha2).
  exists (n1 ++ n2)%list; split; [now apply Forall_app |].
  intros c. rewrite Ha1; cbn [bind]. rewrite Ha2. now rewrite extend_app.
Qed.

Ltac no_range :=
  first [ apply records_ok
        | apply records_add; unfold notRange; reflexivity
        | apply records_addRequired; unfold notRange; reflexivity ].

Ltac open_quiet Hg key :=
  let Hf := fresh "Hf" in
  let v := fresh "v" in
  let Hv := fresh "Hv" in
  destruct (field_cases _ _ key Hg) as [Hf | (v & Hf & Hv)];
  rewrite Hf; cbn [bind].

Lemma quiet_topApiVersion n :
  good doc n -> records notRange (fun c => Accumulate.topApiVersion c n).
Proof.
  intros Hg. unfold Accumulate.topApiVersion.
  open_quiet Hg "apiVersion"%string; [no_range |].
  destruct (Accumulate.isStr v); cbn [negb]; [|no_range].
  destruct (Value v =? "v1")%string; cbn [negb]; no_range.
Qed.

Lemma quiet_topKind n :
  good doc n -> records notRange (fun c => Accumulate.topKind c n).
Proof.
  intros Hg. unfold Accumulate.topKind.
  open_quiet Hg "kind"%string; [no_range |].
  destruct (Accumulate.isStr v); cbn [negb]; [|no_range].
  destruct (Value v =? "Pod")%string; cbn [negb]; no_range.
Qed.

Lemma quiet_validateSpec n :
  good doc n -> records notRange (fun c => Accumulate.validateSpec c n).
Proof.
  intros Hg. unfold Accumulate.validateSpec.
  destruct (isMapping n); cbn [negb]; [|no_range].
  open_quiet Hg "os"%string; [no_range |].
  destruct (Accumulate.isStr v); cbn [negb]; [|no_range].
  cbv zeta.
  destruct ((ToLower (Value v) =? "linux")%string || (ToLower (Value v) =? "windows")%string);
    no_range.
Qed.

Lemma quiet_metadataName n :
  good doc n -> records notRange (fun c => Accumulate.metadataName c n).
Proof.
  intros Hg. unfold Accumulate.metadataName.
  open_quiet Hg "name"%string; [no_range |].
  destruct (Accumulate.isStr v); cbn [negb]; [|no_range].
  destruct (TrimSpace (Value v) =? "")%string; no_range.
Qed.

Lemma quiet_metadataNamespace n :
  good doc n -> records notRange (fun c => Accumulate.metadataNamespace c n).
Proof.
  intros Hg. unfold Accumulate.metadataNamespace.
  open_quiet Hg "namespace"%string; [no_range |].
  destruct (Accumulate.isStr v); cbn [negb]; no_range.
Qed.

Lemma quiet_labelsLoop content :
  Nat.even (List.length content) = true ->
  records notRange (fun c => Accumulate.labelsLoop c content).
Proof.
  revert content.
  apply (pairs_ind _ (fun content =>
    records notRange (fun c => Accumulate.labelsLoop c content))).
  - apply records_ok.
  - intros k v rest _ IH.
    apply (records_bind notRange (fun c => Ok (Accumulate.labelsEntry c k v))
             (fun c => Accumulate.labelsLoop c rest)); [|exact IH].
    unfold Accumulate.labelsEntry.
    apply (records_bind notRange
             (fun c => Ok (if negb (Accumulate.isStr k)
                           then Accumulate.add c (Line k) "labels key must be string"
                           else c))
             (fun c => Ok (if negb (Accumulate.isStr v)
                           then Accumulate.add c (Line v) "labels value must be string"
                           else c))).
    + destruct (Accumulate.isStr k); cbn [negb]; no_range.
    + destruct (Accumulate.isStr v); cbn [negb]; no_range.
Qed.

Lemma quiet_metadataLabels n :
  good doc n -> records notRange (fun c => Accumulate.metadataLabels c n).
Proof.
  intros Hg. unfold Accumulate.metadataLabels.
  open_quiet Hg "labels"%string; [no_range |].
  destruct (isMapping v) eqn:Hm; cbn [negb]; [|no_range].
  apply quiet_labelsLoop. destruct Hv as [_ Hp]. now apply (parsed_inv v Hp).
Qed.

Lemma quiet_validateMetadata n :
  good doc n -> records notRange (fun c => Accumulate.validateMetadata c n).
Proof.
  intros Hg. unfold Accumulate.validateMetadata.
  destruct (isMapping n); cbn [negb]; [|no_range].
  apply (records_bind notRange (fun c => Accumulate.metadataName c n));
    [now apply quiet_metadataName |].
  apply (records_bind notRange (fun c => Accumulate.metadataNamespace c n));
    [now apply quiet_metadataNamespace | now apply quiet_metadataLabels].
Qed.

Lemma quiet_topMetadata n :
  good doc n -> records notRange (fun c => Accumulate.topMetadata c n).
Proof.
  intros Hg. unfold Accumulate.topMetadata.
  open_quiet Hg "metadata"%string; [no_range |].
  now apply quiet_validateMetadata.
Qed.

End Before.

(** *** What [flush] writes *)

Lemma flush_fold (f : string) (es : list Accumulate.verr) (out : list string) :
  fold_left (Accumulate.flushOne f) es out = (out ++ List.map (rendered f) es)%list.
Proof.
  revert out. induction es as [|e es IH]; intros out; simpl.
  - now rewrite app_nil_r.
  - rewrite IH. unfold Accumulate.flushOne, rendered, Fprintf.
    destruct (0 <? Accumulate.line e); now rewrite <- app_assoc.
Qed.

Lemma flush_spec (c : Accumulate.vctx) (out : list string) :
  Accumulate.flush c out
  = ((out ++ List.map (rendered (Accumulate.file c)) (Accumulate.errs c))%list,
     match Accumulate.errs c with [] => 0 | _ :: _ => 1 end).
Proof.
  unfold Accumulate.flush. destruct (Accumulate.errs c) as [|e es] eqn:He.
  - simpl. now rewrite app_nil_r.
  - now rewrite flush_fold.
Qed.

(** *** The image rule *)

Lemma lastIndex_absent (s : string) (c : ascii) :
  existsByte (Ascii.eqb c) s = false -> LastIndexByte s c = -1.
Proof.
  induction s as [|x r IH]; simpl; [reflexivity |].
  intros Hx. apply orb_false_iff in Hx as [Hx Hr].
  rewrite (IH Hr). simpl. rewrite Ascii.eqb_sym, Hx. reflexivity.
Qed.

Lemma lastIndex_app (a b : string) (c : ascii) :
  existsByte (Ascii.eqb c) b = false ->
  LastIndexByte (a ++ String c b) c = Z.of_nat (String.length a)
  /\ drop (S (String.length a)) (a ++ String c b) = b.
Proof.
  intros Hb. induction a as [|x a [IH1 IH2]]; simpl.
  - rewrite (lastIndex_absent b c Hb). simpl. rewrite Ascii.eqb_refl.
    split; [reflexivity | now destruct b].
  - rewrite IH1. split.
    + destruct (0 <=? Z.of_nat (String.length a)) eqn:Hl; [lia |].
      apply Z.leb_gt in Hl. lia.
    + exact IH2.
Qed.

Lemma split_last (s : string) (c : ascii) :
  existsByte (Ascii.eqb c) s = true ->
  exists a b, s = (a ++ String c b)%string /\ existsByte (Ascii.eqb c) b = false.
Proof.
  induction s as [|x r IH]; simpl; [discriminate |].
  intros Hx.
  destruct (existsByte (Ascii.eqb c) r) eqn:Hr.
  - destruct (IH eq_refl) as (a & b & -> & Hb).
    exists (String x a), b. now split.
  - rewrite orb_false_r in Hx. apply Ascii.eqb_eq in Hx. subst x.
    exists ""%string, r. now split.
Qed.

Lemma slice_after_last (a b : string) (c : ascii) :
  existsByte (Ascii.eqb c) b = false ->
  sliceFrom (a ++ String c b) (LastIndexByte (a ++ String c b) c + 1) = b.
Proof.
  intros Hb. destruct (lastIndex_app a b c Hb) as [Hi Hd].
  unfold sliceFrom. rewrite Hi.
  replace (Z.to_nat (Z.of_nat (String.length a) + 1)) with (S (String.length a)) by lia.
  exact Hd.
Qed.

Lemma image_rule (v : string) :
  HasPrefix v "registry.bigbrother.io/"
  && ContainsByte (sliceFrom v (LastIndexByte v "/" + 1)) ":" = true
  <-> imageValid v.
Proof.
  unfold imageValid. split.
  - intros H. apply andb_true_iff in H as [Hp Hc]. split; [exact Hp |].
    assert (Hs : existsByte (Ascii.eqb "/") v = true)
      by (eapply prefix_exists; [exact Hp | reflexivity]).
    destruct (split_last v "/" Hs) as (a & b & -> & Hb).
    rewrite (slice_after_last a b "/" Hb) in Hc.
    exists a, b. now repeat split.
  - intros (Hp & a & b & -> & Hb & Hc). simpl in *.
    rewrite Hp. cbn [andb].
    now rewrite (slice_after_last a b "/" Hb).
Qed.

Lemma field_some_mapping (n : Node) (k : string) (v : Node) :
  field n k = Ok (Some v) -> isMapping n = true.
Proof. unfold field. destruct (isMapping n); [reflexivity | discriminate]. Qed.

Lemma outOfRange_bounds (p : Z) : outOfRange p = false <-> 1 <= p <= 65535.
Proof. unfold outOfRange. rewrite orb_false_iff. lia. Qed.


(** ** The claims *)

Section Claims.
Context `{U : Unicode}.

(** C1. The document of the end-to-end scenario ([apiVersion: v1],
    [kind: Pod], [metadata.name: "web"], one container [web_app] with
    the registry image and empty [resources]) draws no error in either
    variant: nothing is recorded, nothing is written, and the exit
    status is 0. *)
Theorem C1_pod_web_accepted (fileName : string) (out : list string) :
  Accumulate.validateTop (ctx0 fileName) podWeb = Ok (ctx0 fileName)
  /\ Accumulate.main fileName podWeb out = Ok (out, 0)
  /\ FailFast.validateTopLevel fileName podWeb out = Ok (None, out)
  /\ FailFast.main fileName podWeb out = Ok (out, 0).
Proof. repeat split; reflexivity. Qed.


(** C3. On a document whose [spec] is the scalar [42] the accumulating
    variant records two errors for that one node, the shape error of
    [validateSpec] and the missing [containers] of
    [validateSpecContainers]; [main.go] writes the shape error only. *)
Theorem C3_scalar_spec_two_errors (fileName : string) :
  Accumulate.validateTop (ctx0 fileName) podScalarSpec
  = Ok (extend (ctx0 fileName)
          [verrOf 5 "spec must be object"; verrOf 0 "containers is required"])
  /\ FailFast.validateTopLevel fileName podScalarSpec []
     = Ok (Some "validation failed"%string,
           [(fileName ++ ":5 spec must be object" ++ nl)%string]).
Proof. split; reflexivity. Qed.

(** C4, as amended.  In the accumulating variant the pass writes
    nothing: [flush] writes every recorded error, in the order of
    recording, as [file:line message] when the line is positive and as
    [file: message] otherwise, and the exit status is 1 when an error
    was recorded and 0 when none was.  [main.go] has no such step: it
    writes its one line, in the same two forms, when the violation is
    met, and its exit status is 1 exactly when a line was written. *)
Theorem C4_output (f : string) (doc : Node) (out : list string) :
  parsed doc = true ->
  (forall c out,
      Accumulate.flush c out
      = ((out ++ List.map (rendered (Accumulate.file c)) (Accumulate.errs c))%list,
         match Accumulate.errs c with [] => 0 | _ :: _ => 1 end))
  /\ (exists new code,
        Accumulate.validateTop (ctx0 f) doc = Ok (extend (ctx0 f) new)
        /\ Accumulate.main f doc out = Ok ((out ++ List.map (rendered f) new)%list, code)
        /\ (code <> 0 <-> new <> []))
  /\ ((FailFast.validateTopLevel f doc out = Ok (None, out)
       /\ FailFast.main f doc out = Ok (out, 0))
      \/ (exists e l,
            explainedLine f doc l
            /\ FailFast.validateTopLevel f doc out = Ok (Some e, (out ++ [l])%list)
            /\ FailFast.main f doc out = Ok ((out ++ [l])%list, 1))).
Proof.
  intros Hp.
  destruct (rel_validateTop f doc false Hp) as (new & Hex & Ha & Hm); [discriminate |].
  split; [exact flush_spec | split].
  - exists new, (match new with [] => 0 | _ :: _ => 1 end).
    split; [apply Ha | split].
    + unfold Accumulate.main. rewrite Ha. cbn [bind]. rewrite flush_spec. reflexivity.
    + destruct new; split; intros H; try discriminate; try congruence.
  - destruct Hm as [[Hpass _] | (e & l & Hl & Hw & _)].
    + left. unfold FailFast.main. now rewrite Hpass.
    + right. exists e, l. unfold FailFast.main. rewrite Hw. now repeat split.
Qed.

(** C5, as amended.  Let [containers] be present under [spec] and be an
    empty sequence.  The accumulating variant records the range
    violation of [containers] once, as the last error, after the errors
    of the checks of [apiVersion], [kind], [os] and [metadata], none of
    which is that violation; no container is looked at.  [main.go]
    writes the range violation when each of these earlier checks
    passes, and otherwise stops at the first of them that fails, so
    that no range violation is written. *)
Theorem C5_empty_containers (f : string) (doc spec cs : Node) :
  parsed doc = true ->
  field doc "spec" = Ok (Some spec) ->
  field spec "containers" = Ok (Some cs) ->
  isSequence cs = true ->
  Content cs = [] ->
  (forall c, Accumulate.validateSpecContainers c spec
             = Ok (Accumulate.add c (Line cs) "containers value out of range"))
  /\ (exists before,
        Forall notRange before
        /\ forall c, Accumulate.validateTop c doc
                     = Ok (extend c (before
                                     ++ [verrOf (Line cs) "containers value out of range"])))
  /\ (let early :=
        FailFast.andThen (FailFast.topApiVersion f doc)
          (FailFast.andThen (FailFast.topKind f doc)
             (FailFast.andThen (FailFast.topMetadata f doc) (FailFast.specOs f spec))) in
      (forall s, early s = Ok (None, s)
                 /\ FailFast.validateTopLevel f doc s
                    = Ok (Some "validation failed"%string,
                          Fprintf s (f ++ ":" ++ itoa (Line cs)
                                       ++ " spec.containers value out of range" ++ nl)))
      \/ (exists e l, forall s,
             early s = Ok (Some e, Fprintf s l)
             /\ FailFast.validateTopLevel f doc s = Ok (Some e, Fprintf s l))).
Proof.
  intros Hp Hspec Hcs Hseq Hempty.
  pose proof (good_root doc Hp) as Hg.
  assert (Hgs : good doc spec)
    by (eapply good_child; [exact Hg | now apply field_found with "spec"%string]).
  assert (Hgc : good doc cs)
    by (eapply good_child; [exact Hgs | now apply field_found with "containers"%string]).
  pose proof (field_some_mapping _ _ _ Hspec) as Hmd.
  pose proof (field_some_mapping _ _ _ Hcs) as Hms.
  assert (HA : forall c, Accumulate.validateSpecContainers c spec
                         = Ok (Accumulate.add c (Line cs) "containers value out of range")).
  { intros c. unfold Accumulate.validateSpecContainers.
    rewrite Hcs. cbn [bind]. now rewrite Hseq, Hempty. }
  split; [exact HA | split].
  - destruct (quiet_topApiVersion doc doc Hg) as (e1 & Q1 & H1).
    destruct (quiet_topKind doc doc Hg) as (e2 & Q2 & H2).
    destruct (quiet_validateSpec doc spec Hgs) as (e3 & Q3 & H3).
    destruct (quiet_topMetadata doc doc Hg) as (e4 & Q4 & H4).
    exists (e1 ++ e2 ++ e3 ++ e4)%list. split.
    + repeat (apply Forall_app; split); assumption.
    + intros c. unfold Accumulate.validateTop. rewrite Hmd. cbn [negb].
      rewrite H1. cbn [bind]. rewrite H2. cbn [bind]. rewrite Hspec.
      cbn [bind Accumulate.topSpec]. rewrite H3. cbn [bind]. rewrite H4.
      cbn [bind Accumulate.topContainers]. rewrite HA, add_extend, !extend_app.
      now rewrite <- !app_assoc.
  - cbv zeta.
    assert (Htop : forall s,
      FailFast.validateTopLevel f doc s
      = FailFast.andThen
          (FailFast.andThen (FailFast.topApiVersion f doc)
             (FailFast.andThen (FailFast.topKind f doc)
                (FailFast.andThen (FailFast.topMetadata f doc) (FailFast.specOs f spec))))
          (FailFast.fail f (Line cs) "spec.containers value out of range") s).
    { intros s. unfold FailFast.validateTopLevel, FailFast.topSpec, FailFast.validateSpec,
        FailFast.specContainers, FailFast.withField, FailFast.getField, FailFast.andThen.
      rewrite Hmd, Hspec, Hms, Hcs, Hseq, Hempty. cbn [negb].
      destruct (FailFast.topApiVersion f doc s) as [[[e|] s1]|]; try reflexivity.
      destruct (FailFast.topKind f doc s1) as [[[e|] s2]|]; try reflexivity.
      destruct (FailFast.topMetadata f doc s2) as [[[e|] s3]|]; reflexivity. }
    destruct (rel_bind false f doc _ _ _ _ (rel_topApiVersion f doc false doc Hg)
                (rel_bind false f doc _ _ _ _ (rel_topKind f doc false doc Hg)
                   (rel_bind false f doc _ _ _ _ (rel_topMetadata f doc false doc Hg)
                      (rel_specOs f doc false spec Hgs Hms))))
      as (new & _ & _ & [[Hpass _] | (e & l & _ & Hw & _)]).
    + left. intros s. split; [apply Hpass |].
      rewrite Htop. unfold FailFast.andThen at 1. rewrite Hpass.
      apply fail_line. exact (good_line _ _ Hgc).
    + right. exists e, l. intros s. split; [apply Hw |].
      rewrite Htop. unfold FailFast.andThen at 1. now rewrite Hw.
Qed.

(** C6. When the text of a port scalar parses to [p], both variants
    record a range violation exactly when [p <= 0] or [p >= 65536], for
    [containerPort] and for the [port] of a probe alike: 0 and 65536
    are violations, 1 and 65535 are not. *)
Theorem C6_port_bounds (f pre : string) (n hg cp : Node) (p : Z) :
  isScalar cp = true ->
  Atoi (TrimSpace (Value cp)) = Some p ->
  (isMapping n = true -> field n "containerPort" = Ok (Some cp) ->
     (forall c, Accumulate.validateContainerPort c n
                = Accumulate.portProtocol
                    (if outOfRange p
                     then Accumulate.add c (Line cp) "containerPort value out of range"
                     else c) n)
     /\ (forall s, FailFast.validateContainerPort f n s
                   = if outOfRange p
                     then FailFast.fail f (Line cp) "containerPort value out of range" s
                     else FailFast.portProtocol f n s))
  /\ (field hg "port" = Ok (Some cp) ->
     (forall c, Accumulate.probePort c hg
                = Ok (if outOfRange p
                      then Accumulate.add c (Line cp) "port value out of range"
                      else c))
     /\ (forall s, FailFast.probePort f hg pre s
                   = if outOfRange p
                     then FailFast.fail f (Line cp)
                            (pre ++ ".httpGet.port value out of range") s
                     else Ok (None, s)))
  /\ (outOfRange p = false <-> 1 <= p <= 65535)
  /\ outOfRange 0 = true /\ outOfRange 65536 = true
  /\ outOfRange 1 = false /\ outOfRange 65535 = false.
Proof.
  intros Hsc Hp.
  split; [|split; [|split; [apply outOfRange_bounds | repeat split; reflexivity]]].
  - intros Hm Hf.
    unfold Accumulate.validateContainerPort, FailFast.validateContainerPort,
      FailFast.withField, FailFast.getField.
    rewrite Hm, Hf. cbn [negb bind].
    unfold Accumulate.portNumber, Accumulate.asInt, FailFast.portNumber, FailFast.toInt,
      FailFast.andThen.
    rewrite Hsc, Hp. cbn [negb]. fold (outOfRange p).
    destruct (outOfRange p); split; reflexivity.
  - intros Hf.
    unfold Accumulate.probePort, FailFast.probePort, FailFast.withField, FailFast.getField.
    rewrite Hf. cbn [bind].
    unfold Accumulate.asInt, FailFast.toInt.
    rewrite Hsc, Hp. cbn [negb]. fold (outOfRange p).
    destruct (outOfRange p); split; reflexivity.
Qed.

(** C7. When the image of a container is a string scalar, both
    variants pass it exactly when it is valid in the words of the
    schema (it starts with [registry.bigbrother.io/] and the part after
    its last slash holds a colon), and otherwise record a format
    violation on its line.  [registry.bigbrother.io/app:v1] is valid;
    [registry.bigbrother.io/app] and [other.registry/app:v1] are not. *)
Theorem C7_image_rule (f : string) (n img : Node) :
  field n "image" = Ok (Some img) ->
  Accumulate.isStr img = true ->
  (imageValid (Value img) ->
     (forall c, Accumulate.containerImage c n = Ok c)
     /\ (forall s, FailFast.containerImage f n s = Ok (None, s)))
  /\ (~ imageValid (Value img) ->
     (forall c, Accumulate.containerImage c n
                = Ok (Accumulate.add c (Line img)
                        ("image has invalid format " ++ quoted (Value img))))
     /\ (forall s, FailFast.containerImage f n s
                   = FailFast.fail f (Line img)
                       ("containers.image has invalid format " ++ quoted (Value img)) s))
  /\ imageValid "registry.bigbrother.io/app:v1"
  /\ ~ imageValid "registry.bigbrother.io/app"
  /\ ~ imageValid "other.registry/app:v1".
Proof.
  intros Hf Hstr.
  assert (Hrun :
    (forall c, Accumulate.containerImage c n
       = if HasPrefix (Value img) "registry.bigbrother.io/"
            && ContainsByte (sliceFrom (Value img) (LastIndexByte (Value img) "/" + 1)) ":"
         then Ok c
         else Ok (Accumulate.add c (Line img)
                    ("image has invalid format " ++ quoted (Value img))))
    /\ (forall s, FailFast.containerImage f n s
       = if HasPrefix (Value img) "registry.bigbrother.io/"
            && ContainsByte (sliceFrom (Value img) (LastIndexByte (Value img) "/" + 1)) ":"
         then Ok (None, s)
         else FailFast.fail f (Line img)
                ("containers.image has invalid format " ++ quoted (Value img)) s)).
  { unfold Accumulate.containerImage, FailFast.containerImage,
      FailFast.withField, FailFast.getField.
    rewrite Hf. cbn [bind]. rewrite notStr_isStr, Hstr. cbn [negb].
    destruct (HasPrefix (Value img) "registry.bigbrother.io/") eqn:Hp; cbn [negb andb].
    - cbv zeta. rewrite (registry_slash _ Hp). cbn [orb].
      destruct (ContainsByte _ ":"); cbn [negb]; split; reflexivity.
    - split; reflexivity. }
  destruct Hrun as [HA HF].
  split; [|split; [|split; [|split]]].
  - intros Hv. apply image_rule in Hv.
    split; [intros c; rewrite HA | intros s; rewrite HF]; now rewrite Hv.
  - intros Hv.
    destruct (HasPrefix (Value img) "registry.bigbrother.io/"
              && ContainsByte (sliceFrom (Value img) (LastIndexByte (Value img) "/" + 1)) ":")
      eqn:Hb.
    + exfalso. apply Hv. now apply image_rule.
    + split; [intros c; rewrite HA | intros s; rewrite HF]; reflexivity.
  - apply image_rule. reflexivity.
  - intros Hv. apply image_rule in Hv. discriminate Hv.
  - intros Hv. apply image_rule in Hv. discriminate Hv.
Qed.

(** C8, as amended.  The accumulating variant records, in this order,
    the errors of [apiVersion] and [kind], those of [validateSpec] (the
    shape of [spec] and its [os]), those of [validateMetadata], and
    those of [validateSpecContainers]: the errors of metadata come
    before every error of the containers and after those of the shape
    and [os] of [spec].  [main.go] checks metadata before [spec], and
    writes one line at most. *)
Theorem C8_order (f : string) (doc spec meta : Node) :
  parsed doc = true ->
  field doc "spec" = Ok (Some spec) ->
  field doc "metadata" = Ok (Some meta) ->
  (exists eTop eSpec eMeta eCont,
      (forall c, (c1 <- Accumulate.topApiVersion c doc ;; Accumulate.topKind c1 doc)
                 = Ok (extend c eTop))
      /\ (forall c, Accumulate.validateSpec c spec = Ok (extend c eSpec))
      /\ (forall c, Accumulate.validateMetadata c meta = Ok (extend c eMeta))
      /\ (forall c, Accumulate.validateSpecContainers c spec = Ok (extend c eCont))
      /\ (forall c, Accumulate.validateTop c doc
                    = Ok (extend c (eTop ++ eSpec ++ eMeta ++ eCont))))
  /\ (forall s,
        FailFast.validateTopLevel f doc s
        = FailFast.andThen (FailFast.topApiVersion f doc)
            (FailFast.andThen (FailFast.topKind f doc)
               (FailFast.andThen (FailFast.validateMetadata f meta)
                  (FailFast.validateSpec f spec))) s)
  /\ ((forall s, FailFast.validateTopLevel f doc s = Ok (None, s))
      \/ (exists e l, forall s,
             FailFast.validateTopLevel f doc s = Ok (Some e, Fprintf s l))).
Proof.
  intros Hp Hspec Hmeta.
  pose proof (good_root doc Hp) as Hg.
  assert (Hgs : good doc spec)
    by (eapply good_child; [exact Hg | now apply field_found with "spec"%string]).
  assert (Hgm : good doc meta)
    by (eapply good_child; [exact Hg | now apply field_found with "metadata"%string]).
  pose proof (field_some_mapping _ _ _ Hspec) as Hmd.
  split; [|split].
  - destruct (rel_topApiVersion f doc false doc Hg) as (e1 & _ & H1 & _).
    destruct (rel_topKind f doc false doc Hg) as (e2 & _ & H2 & _).
    destruct (rel_validateMetadata f doc false meta Hgm) as (e4 & _ & H4 & _).
    destruct (rel_specContainers f doc false spec Hgs) as (e5 & _ & H5 & _);
      [discriminate |].
    assert (H3 : exists e3, forall c, Accumulate.validateSpec c spec = Ok (extend c e3)).
    { destruct (isMapping spec) eqn:Hms.
      - destruct (rel_specOs f doc false spec Hgs Hms) as (e3 & _ & H3 & _). now exists e3.
      - exists [verrOf (Line spec) "spec must be object"]. intros c.
        unfold Accumulate.validateSpec. now rewrite Hms. }
    destruct H3 as (e3 & H3).
    exists (e1 ++ e2)%list, e3, e4, e5. repeat split.
    + intros c. rewrite H1. cbn [bind]. rewrite H2. now rewrite extend_app.
    + exact H3.
    + exact H4.
    + exact H5.
    + intros c. unfold Accumulate.validateTop, Accumulate.topMetadata.
      rewrite Hmd. cbn [negb].
      rewrite H1. cbn [bind]. rewrite H2. cbn [bind]. rewrite Hspec.
      cbn [bind Accumulate.topSpec]. rewrite H3. cbn [bind]. rewrite Hmeta.
      cbn [bind]. rewrite H4. cbn [bind Accumulate.topContainers].
      rewrite H5, !extend_app. now rewrite <- !app_assoc.
  - intros s. unfold FailFast.validateTopLevel, FailFast.topMetadata, FailFast.topSpec,
      FailFast.withField, FailFast.getField, FailFast.andThen.
    rewrite Hmd, Hspec, Hmeta. cbn [negb].
    reflexivity.
  - destruct (rel_validateTop f doc false Hp) as (new & _ & _ & Hm); [discriminate |].
    destruct Hm as [[Hpass _] | (e & l & _ & Hw & _)].
    + now left.
    + right. now exists e, l.
Qed.

(** C9. The integer checks of [containerPort] and of the [port] of a
    probe do not look at the tag: whatever tag a scalar carries, when
    its trimmed text parses to [p] no must-be-int error is recorded,
    and the range bounds alone decide, in both variants. *)
Theorem C9_tag_ignored (f pre t : string) (hg cp : Node) (p : Z) :
  isScalar cp = true ->
  Atoi (TrimSpace (Value cp)) = Some p ->
  (forall c, Accumulate.portNumber c (retag t cp)
             = if outOfRange p
               then Accumulate.add c (Line cp) "containerPort value out of range"
               else c)
  /\ (forall s, FailFast.portNumber f (retag t cp) s
                = if outOfRange p
                  then FailFast.fail f (Line cp) "containerPort value out of range" s
                  else Ok (None, s))
  /\ (field hg "port" = Ok (Some (retag t cp)) ->
      (forall c, Accumulate.probePort c hg
                 = Ok (if outOfRange p
                       then Accumulate.add c (Line cp) "port value out of range"
                       else c))
      /\ (forall s, FailFast.probePort f hg pre s
                    = if outOfRange p
                      then FailFast.fail f (Line cp)
                             (pre ++ ".httpGet.port value out of range") s
                      else Ok (None, s))).
Proof.
  intros Hsc Hp.
  assert (Hsc' : isScalar (retag t cp) = true) by exact Hsc.
  assert (Hp' : Atoi (TrimSpace (Value (retag t cp))) = Some p) by exact Hp.
  split; [|split].
  - intros c. unfold Accumulate.portNumber, Accumulate.asInt.
    rewrite Hsc', Hp'. cbn [negb]. fold (outOfRange p).
    destruct (outOfRange p); reflexivity.
  - intros s. unfold FailFast.portNumber, FailFast.toInt.
    rewrite Hsc', Hp'. cbn [negb]. fold (outOfRange p).
    destruct (outOfRange p); reflexivity.
  - intros Hf.
    unfold Accumulate.probePort, FailFast.probePort, FailFast.withField, FailFast.getField.
    rewrite Hf. cbn [bind].
    unfold Accumulate.asInt, FailFast.toInt.
    rewrite Hsc', Hp'. cbn [negb]. fold (outOfRange p).
    destruct (outOfRange p); split; reflexivity.
Qed.

(** C10, as amended.  On a parsed document in whose resource sets every
    key is a string scalar and every [cpu] value carries the integer tag
    exactly when its trimmed text is a decimal integer, the two
    variants agree: [main.go] returns [nil] exactly when the
    accumulating variant records no error, and the exit status is the
    same. *)
Theorem C10_same_verdict (f : string) (doc : Node) (out1 out2 : list string) :
  parsed doc = true ->
  resourcesAgree doc = true ->
  exists new out1' out2' code,
    Accumulate.validateTop (ctx0 f) doc = Ok (extend (ctx0 f) new)
    /\ (FailFast.validateTopLevel f doc out1 = Ok (None, out1) <-> new = [])
    /\ FailFast.main f doc out1 = Ok (out1', code)
    /\ Accumulate.main f doc out2 = Ok (out2', code).
Proof.
  intros Hp Hag.
  destruct (rel_validateTop f doc true Hp) as (new & Hex & Ha & Hm); [now intros _ |].
  assert (HA : Accumulate.main f doc out2
               = Ok ((out2 ++ List.map (rendered f) new)%list,
                     match new with [] => 0 | _ :: _ => 1 end)).
  { unfold Accumulate.main. rewrite Ha. cbn [bind]. now rewrite flush_spec. }
  unfold FailFast.main.
  destruct Hm as [[Hpass Hnil] | (e & l & Hl & Hw & Hne)].
  - specialize (Hnil eq_refl). subst new.
    exists [], out1, (out2 ++ [])%list, 0. rewrite Hpass.
    split; [apply Ha | split; [split; reflexivity | split; [reflexivity | exact HA]]].
  - specialize (Hne eq_refl).
    exists new, (Fprintf out1 l), (out2 ++ List.map (rendered f) new)%list, 1.
    rewrite Hw. split; [apply Ha | split; [| split]].
    + split; [discriminate | intros H; contradiction].
    + reflexivity.
    + rewrite HA. destruct new; [contradiction | reflexivity].
Qed.

End Claims.

(** ** The claims at concrete documents *)


(** C4 as stated fails for [main.go]: on a document that is a bare
    scalar the pass itself writes to standard error. *)
Lemma C4_pass_writes_counterexample :
  ~ (exists e,
        FailFast.validateTopLevel (U := noTables) "pod.yaml" docScalar [] = Ok (e, [])).
Proof. intros [e H]. vm_compute in H. discriminate H. Qed.

Lemma C4_output_witness :
  parsed podBsd = true
  /\ exists new code,
       Accumulate.validateTop (U := noTables) (ctx0 "pod.yaml") podBsd
       = Ok (extend (ctx0 "pod.yaml") new)
       /\ Accumulate.main (U := noTables) "pod.yaml" podBsd []
          = Ok (([] ++ List.map (rendered "pod.yaml") new)%list, code)
       /\ (code <> 0 <-> new <> []).
Proof.
  split; [reflexivity |].
  exact (proj1 (proj2 (C4_output (U := noTables) "pod.yaml" podBsd [] eq_refl))).
Defined.

(** C5 as stated fails for [main.go]: with [apiVersion: v2] and an empty
    [containers] no range violation is written. *)
Lemma C5_no_range_line_counterexample :
  ~ (exists e before after,
        FailFast.validateTopLevel (U := noTables) "pod.yaml" podNoContainers []
        = Ok (e, (before
                  ++ [("pod.yaml:6 spec.containers value out of range" ++ nl)%string]
                  ++ after)%list)).
Proof.
  intros (e & before & after & H). vm_compute in H.
  injection H as _ Hl.
  destruct before as [|x [|y before]]; simpl in Hl; discriminate Hl.
Qed.

Lemma C5_empty_containers_witness :
  parsed podNoContainers = true
  /\ forall c, Accumulate.validateSpecContainers (U := noTables) c specNoContainers
               = Ok (Accumulate.add c (Line noContainers) "containers value out of range").
Proof.
  split; [reflexivity |].
  exact (proj1 (C5_empty_containers (U := noTables) "pod.yaml" podNoContainers
                  specNoContainers noContainers eq_refl eq_refl eq_refl eq_refl eq_refl)).
Defined.

(** C6 at the port [0]. *)
Lemma C6_port_bounds_witness :
  Atoi (TrimSpace (U := noTables) "0") = Some 0
  /\ forall c, Accumulate.validateContainerPort (U := noTables) c (portEntry "0")
               = Accumulate.portProtocol (U := noTables)
                   (Accumulate.add c 3 "containerPort value out of range") (portEntry "0").
Proof.
  split; [reflexivity |].
  exact (proj1 (proj1 (C6_port_bounds (U := noTables) "pod.yaml" "containers.livenessProbe"
                         (portEntry "0") (probeEntry (intN 3 "0")) (intN 3 "0") 0
                         eq_refl eq_refl) eq_refl eq_refl)).
Defined.

(** C7 at the container of the end-to-end scenario. *)
Lemma C7_image_rule_witness :
  Accumulate.isStr (strN 8 "registry.bigbrother.io/app:v1") = true
  /\ imageValid "registry.bigbrother.io/app:v1"
  /\ ~ imageValid "registry.bigbrother.io/app"
  /\ ~ imageValid "other.registry/app:v1".
Proof.
  split; [reflexivity |].
  exact (proj2 (proj2 (C7_image_rule "pod.yaml" (mapN 7 (webContainer 7))
                         (strN 8 "registry.bigbrother.io/app:v1") eq_refl eq_refl))).
Defined.

(** C8 as stated fails for the accumulating variant: the error of [os],
    which belongs to [spec], is recorded before the error of metadata. *)
Lemma C8_spec_first_counterexample :
  ~ (exists before eMeta eSpec,
        Accumulate.validateMetadata (U := noTables) (ctx0 "pod.yaml") metaBsd
        = Ok (extend (ctx0 "pod.yaml") eMeta)
        /\ (c <- Accumulate.validateSpec (U := noTables) (ctx0 "pod.yaml") specBsd ;;
            Accumulate.validateSpecContainers (U := noTables) c specBsd)
           = Ok (extend (ctx0 "pod.yaml") eSpec)
        /\ Accumulate.validateTop (U := noTables) (ctx0 "pod.yaml") podBsd
           = Ok (extend (ctx0 "pod.yaml") (before ++ eMeta ++ eSpec))).
Proof.
  intros (before & eMeta & eSpec & Hm & Hs & Ht).
  vm_compute in Hm. injection Hm as Hm. subst eMeta.
  vm_compute in Hs. injection Hs as Hs. subst eSpec.
  unfold extend, ctx0 in Ht. cbn [Accumulate.errs Accumulate.file app] in Ht.
  vm_compute in Ht.
  injection Ht as Ht.
  destruct before as [|x [|y [|z before]]]; simpl in Ht; discriminate Ht.
Qed.

Lemma C8_order_witness :
  parsed podBsd = true
  /\ ((forall s, FailFast.validateTopLevel (U := noTables) "pod.yaml" podBsd s = Ok (None, s))
      \/ (exists e l, forall s,
             FailFast.validateTopLevel (U := noTables) "pod.yaml" podBsd s
             = Ok (Some e, Fprintf s l))).
Proof.
  split; [reflexivity |].
  exact (proj2 (proj2 (C8_order (U := noTables) "pod.yaml" podBsd specBsd metaBsd
                         eq_refl eq_refl eq_refl))).
Defined.

(** C9 at the quoted scalar ["80"], which carries the string tag. *)
Lemma C9_tag_ignored_witness :
  Atoi (TrimSpace (U := noTables) (Value (strN 3 "80"))) = Some 80
  /\ forall c, Accumulate.portNumber (U := noTables) c (retag "!!str" (strN 3 "80")) = c.
Proof.
  split; [reflexivity |].
  exact (proj1 (C9_tag_ignored (U := noTables) "pod.yaml" "containers.livenessProbe" "!!str"
                  (probeEntry (strN 3 "80")) (strN 3 "80") 80 eq_refl eq_refl)).
Defined.

(** C10 as stated fails: for [cpu: "2"], a quoted amount, [main.go]
    exits with 0 and the accumulating variant with 1. *)
Lemma C10_quoted_cpu_counterexample :
  ~ (exists out1 out2 code,
        FailFast.main (U := noTables) "pod.yaml" podQuotedCpu [] = Ok (out1, code)
        /\ Accumulate.main (U := noTables) "pod.yaml" podQuotedCpu [] = Ok (out2, code)).
Proof.
  intros (out1 & out2 & code & H1 & H2).
  vm_compute in H1. vm_compute in H2.
  injection H1 as _ H1. injection H2 as _ H2. congruence.
Qed.

Lemma C10_same_verdict_witness :
  (parsed podFull = true /\ resourcesAgree (U := noTables) podFull = true)
  /\ exists new out1' out2' code,
       Accumulate.validateTop (U := noTables) (ctx0 "pod.yaml") podFull
       = Ok (extend (ctx0 "pod.yaml") new)
       /\ (FailFast.validateTopLevel (U := noTables) "pod.yaml" podFull [] = Ok (None, [])
           <-> new = [])
       /\ FailFast.main (U := noTables) "pod.yaml" podFull [] = Ok (out1', code)
       /\ Accumulate.main (U := noTables) "pod.yaml" podFull [] = Ok (out2', code).
Proof.
  split; [split; reflexivity |].
  exact (C10_same_verdict (U := noTables) "pod.yaml" podFull [] [] eq_refl eq_refl).
Defined.

(** ** Further properties of the code *)

(** *** Looking up a key *)

Lemma fieldLoop_first (pre : list Node) (key : string) (k v : Node) (post : list Node) :
  Nat.even (List.length pre) = true ->
  existsb (keyIs key) (pairedKeys pre) = false ->
  keyIs key k = true ->
  fieldLoop (pre ++ k :: v :: post) key = Ok (Some v).
Proof.
  intros Hev. revert pre Hev.
  apply (pairs_ind _ (fun pre =>
    existsb (keyIs key) (pairedKeys pre) = false ->
    keyIs key k = true ->
    fieldLoop (pre ++ k :: v :: post) key = Ok (Some v))).
  - intros _ Hk. simpl. unfold keyIs in Hk. now rewrite Hk.
  - intros k0 v0 rest _ IH Hno Hk. simpl in Hno |- *.
    apply orb_false_iff in Hno as [Hk0 Hno].
    unfold keyIs in Hk0. rewrite Hk0. now apply IH.
Qed.

Lemma fieldLoop_split (content : list Node) (key : string) (v : Node) :
  fieldLoop content key = Ok (Some v) ->
  exists pre k post,
    content = (pre ++ k :: v :: post)%list
    /\ Nat.even (List.length pre) = true
    /\ existsb (keyIs key) (pairedKeys pre) = false
    /\ keyIs key k = true.
Proof.
  revert content. fix IH 1.
  intros [|k [|v' rest]]; simpl; try discriminate.
  destruct (isScalar k && (Value k =? key)%string) eqn:Hk.
  - intros [= ->]. exists [], k, rest. now repeat split.
  - intros Hf. destruct (IH rest Hf) as (pre & k1 & post & -> & Hev & Hno & Hk1).
    exists (k :: v' :: pre), k1, post. repeat split; try assumption.
    simpl. unfold keyIs at 1. now rewrite Hk.
Qed.

Lemma fieldLoop_absent (content : list Node) (key : string) :
  existsb (keyIs key) (pairedKeys content) = false ->
  fieldLoop content key = if Nat.even (List.length content) then Ok None else Panic.
Proof.
  revert content. fix IH 1.
  intros [|k [|v rest]]; try reflexivity.
  intros Hno. cbn [pairedKeys existsb] in Hno.
  apply orb_false_iff in Hno as [Hk Hno].
  cbn [fieldLoop]. unfold keyIs in Hk. rewrite Hk.
  rewrite (IH rest Hno). reflexivity.
Qed.

(** X1. [field] (and [getField]) returns the value of the first key that
    is a scalar with the wanted text, whatever follows it, even a key
    left without a value; it finds nothing in a node that is no
    mapping; and when no key with a value matches it returns not-found
    if keys and values pair up and panics if a key is left over. *)
Theorem X1_field_lookup (n : Node) (key : string) :
  (isMapping n = false -> field n key = Ok None)
  /\ (forall pre k v post,
        isMapping n = true ->
        Content n = (pre ++ k :: v :: post)%list ->
        Nat.even (List.length pre) = true ->
        existsb (keyIs key) (pairedKeys pre) = false ->
        keyIs key k = true ->
        field n key = Ok (Some v))
  /\ (forall v,
        field n key = Ok (Some v) ->
        isMapping n = true
        /\ exists pre k post,
             Content n = (pre ++ k :: v :: post)%list
             /\ Nat.even (List.length pre) = true
             /\ existsb (keyIs key) (pairedKeys pre) = false
             /\ keyIs key k = true)
  /\ (isMapping n = true ->
      existsb (keyIs key) (pairedKeys (Content n)) = false ->
      field n key = if Nat.even (List.length (Content n)) then Ok None else Panic).
Proof.
  unfold field. repeat split.
  - now intros ->.
  - intros pre k v post Hm Hc Hev Hno Hk. rewrite Hm, Hc. cbn [negb].
    now apply fieldLoop_first.
  - destruct (isMapping n); [reflexivity | discriminate].
  - destruct (isMapping n); [cbn [negb] in H | discriminate].
    now apply fieldLoop_split.
  - intros Hm Hno. rewrite Hm. cbn [negb]. now apply fieldLoop_absent.
Qed.

(** *** The two formats *)

Lemma memFrom_spec (s : string) (seen : bool) :
  memFrom seen s = true
  <-> exists d u, s = (d ++ u)%string
                  /\ allDigits d = true
                  /\ (seen = true \/ d <> ""%string)
                  /\ (u = "Gi" \/ u = "Mi" \/ u = "Ki")%string.
Proof.
  split.
  - revert seen. induction s as [|c r IH]; intros seen; cbn [memFrom]; [discriminate |].
    destruct (isDigit c) eqn:Hc.
    + intros Hr. destruct (IH true Hr) as (d & u & -> & Hd & _ & Hu).
      exists (String c d), u. simpl. rewrite Hc, Hd.
      repeat split; [right; discriminate | exact Hu].
    + intros H. apply andb_true_iff in H as [Hs Hu].
      exists ""%string, (String c r). repeat split; [now left |].
      apply orb_true_iff in Hu as [Hu | Hu]; [apply orb_true_iff in Hu as [Hu | Hu] |];
        apply String.eqb_eq in Hu; rewrite Hu; auto.
  - intros (d & u & -> & Hd & Hs & Hu). revert seen Hs.
    induction d as [|c d IH]; intros seen Hs; simpl in *.
    + destruct Hs as [-> | Hs]; [|contradiction].
      destruct Hu as [-> | [-> | ->]]; reflexivity.
    + apply andb_true_iff in Hd as [Hc Hd]. rewrite Hc.
      apply IH; [exact Hd | now left].
Qed.

Lemma concat_underscored (x : string) (rest : list string) :
  String.concat "_" (x :: rest) = (x ++ underscored rest)%string.
Proof.
  revert x. induction rest as [|y rest IH]; intros x.
  - simpl. now rewrite append_nil_r.
  - change (String.concat "_" (x :: y :: rest))
      with (x ++ "_" ++ String.concat "_" (y :: rest))%string.
    rewrite IH. reflexivity.
Qed.

Lemma snakeFrom_build (rest : list string) :
  Forall segment rest ->
  forall first seen,
    allBytes isLowerAlnum first = true ->
    (seen = true \/ first <> ""%string) ->
    snakeFrom seen (first ++ underscored rest) = true.
Proof.
  induction rest as [|x rest IH]; intros Hrest first.
  - induction first as [|c first IHf]; intros seen Hf Hs; simpl in *.
    + destruct Hs as [-> | Hs]; [reflexivity | contradiction].
    + apply andb_true_iff in Hf as [Hc Hf]. rewrite Hc. apply IHf; [exact Hf | now left].
  - inversion Hrest as [|x' rest' [Hne Hx] Hrest']; subst.
    induction first as [|c first IHf]; intros seen Hf Hs.
    + destruct Hs as [-> | Hs]; [|contradiction].
      change (snakeFrom true (String "_" (x ++ underscored rest)) = true).
      cbn [snakeFrom]. change (isLowerAlnum "_") with false. cbn [Ascii.eqb Bool.eqb andb].
      simpl. apply IH; [exact Hrest' | exact Hx | now right].
    + simpl in Hf |- *. apply andb_true_iff in Hf as [Hc Hf]. rewrite Hc.
      apply IHf; [exact Hf | now left].
Qed.

Lemma snakeFrom_split (s : string) (seen : bool) :
  snakeFrom seen s = true ->
  exists first rest,
    s = (first ++ underscored rest)%string
    /\ allBytes isLowerAlnum first = true
    /\ (seen = true \/ first <> ""%string)
    /\ Forall segment rest.
Proof.
  revert seen. induction s as [|c r IH]; intros seen; simpl.
  - intros ->. exists ""%string, []. repeat split; [now left | constructor].
  - destruct (isLowerAlnum c) eqn:Hc.
    + intros Hr. destruct (IH true Hr) as (first & rest & -> & Hf & _ & Hrest).
      exists (String c first), rest. simpl. rewrite Hc, Hf.
      repeat split; [right; discriminate | exact Hrest].
    + destruct (Ascii.eqb c "_") eqn:Hu; [|discriminate].
      apply Ascii.eqb_eq in Hu. subst c.
      intros H. apply andb_true_iff in H as [-> Hr].
      destruct (IH false Hr) as (first & rest & -> & Hf & [Hs | Hs] & Hrest);
        [discriminate |].
      exists ""%string, (first :: rest). repeat split; [now left |].
      constructor; [now split | exact Hrest].
Qed.

Section Formats.
Context `{U : Unicode}.

(** X2. A memory amount matches the pattern exactly when it is one or
    more decimal digits followed by [Gi], [Mi] or [Ki] and nothing
    else.  Under the key [memory] a string value that matches draws no
    error in either variant, and one that does not draws a format
    violation on the line of the value. *)
Theorem X2_memory_quantity (f pre : string) (k v : Node) :
  Value k = "memory"%string ->
  Accumulate.isStr k = true ->
  Accumulate.isStr v = true ->
  (memMatch (Value v) = true
   <-> exists d u, Value v = (d ++ u)%string
                   /\ d <> ""%string /\ allDigits d = true
                   /\ (u = "Gi" \/ u = "Mi" \/ u = "Ki")%string)
  /\ (forall c, Accumulate.rrEntry c k v
                = if memMatch (Value v) then c
                  else Accumulate.add c (Line v)
                         ("memory has invalid format " ++ quoted (Value v)))
  /\ (forall s, FailFast.rrEntry f pre k v s
                = if memMatch (Value v) then Ok (None, s)
                  else FailFast.fail f (Line v)
                         (pre ++ ".memory has invalid format " ++ quoted (Value v)) s).
Proof.
  intros Hk Hsk Hsv. split; [|split].
  - unfold memMatch. rewrite memFrom_spec. split.
    + intros (d & u & Hv & Hd & [Hs | Hs] & Hu); [discriminate |].
      exists d, u. now repeat split.
    + intros (d & u & Hv & Hne & Hd & Hu). exists d, u. repeat split; auto.
  - intros c. unfold Accumulate.rrEntry. rewrite Hk, Hsv. cbn [String.eqb Ascii.eqb negb].
    simpl. now destruct (memMatch (Value v)).
  - intros s. unfold FailFast.rrEntry. rewrite !notStr_isStr, Hk, Hsk, Hsv.
    simpl. now destruct (memMatch (Value v)).
Qed.

(** X3. A name matches the snake-case pattern exactly when it is one or
    more segments of [a-z0-9], each of one byte at least, joined by
    single underscores.  A container name that is a string scalar and
    matches draws no error in either variant; one that does not draws
    one error on its line: in [main.go] a format violation, in the
    accumulating variant [name is required] when the trimmed text is
    empty and a format violation otherwise. *)
Theorem X3_snake_case_name (f : string) (n name : Node) :
  field n "name" = Ok (Some name) ->
  Accumulate.isStr name = true ->
  (snakeMatch (Value name) = true
   <-> exists segs, segs <> [] /\ Forall segment segs
                    /\ Value name = String.concat "_" segs)
  /\ (forall c, Accumulate.containerName c n
                = Ok (if snakeMatch (Value name) then c
                      else Accumulate.add c (Line name)
                             (if (TrimSpace (Value name) =? "")%string
                              then "name is required"%string
                              else ("name has invalid format " ++ quoted (Value name))%string)))
  /\ (forall s, FailFast.containerName f n s
                = if snakeMatch (Value name) then Ok (None, s)
                  else FailFast.fail f (Line name)
                         ("containers.name has invalid format " ++ quoted (Value name)) s).
Proof.
  intros Hf Hstr. split; [|split].
  - unfold snakeMatch. split.
    + intros Hs. destruct (snakeFrom_split _ _ Hs) as (first & rest & Hv & Hfirst & [Hx | Hne] & Hrest);
        [discriminate |].
      exists (first :: rest). repeat split.
      * discriminate.
      * constructor; [now split | exact Hrest].
      * now rewrite concat_underscored.
    + intros (segs & Hne & Hsegs & Hv). destruct segs as [|x rest]; [contradiction |].
      rewrite Hv, concat_underscored.
      inversion Hsegs as [|x' rest' [Hx1 Hx2] Hrest]; subst.
      apply snakeFrom_build; [exact Hrest | exact Hx2 | now right].
  - intros c. unfold Accumulate.containerName. rewrite Hf. cbn [bind]. rewrite Hstr.
    cbn [negb]. destruct (snakeMatch (Value name)) eqn:Hs; cbn [negb].
    + destruct (snake_trim (Value name) Hs) as [Ht Hne]. rewrite Ht.
      apply String.eqb_neq in Hne. now rewrite Hne.
    + now destruct (TrimSpace (Value name) =? "")%string.
  - intros s. unfold FailFast.containerName, FailFast.withField, FailFast.getField.
    rewrite Hf, notStr_isStr, Hstr. cbn [negb].
    now destruct (snakeMatch (Value name)).
Qed.

End Formats.

(** *** Letter case and white space *)

Lemma mapBytes_lower_id (s : string) :
  existsByte isUpperByte s = false -> mapBytes lowerByte s = s.
Proof.
  induction s as [|c r IH]; simpl; [reflexivity |].
  intros H. apply orb_false_iff in H as [Hc Hr].
  rewrite (IH Hr). unfold lowerByte. now rewrite Hc.
Qed.

Lemma mapBytes_upper_id (s : string) :
  existsByte isLowerByte s = false -> mapBytes upperByte s = s.
Proof.
  induction s as [|c r IH]; simpl; [reflexivity |].
  intros H. apply orb_false_iff in H as [Hc Hr].
  rewrite (IH Hr). unfold upperByte. now rewrite Hc.
Qed.

Lemma space_ascii (c : ascii) : asciiSpace c = true -> (RuneSelf <=? byte c) = false.
Proof. unfold asciiSpace, RuneSelf. cbv zeta. lia. Qed.

Lemma plain_inv (c : ascii) :
  isPlain c = true -> (RuneSelf <=? byte c) = false /\ asciiSpace c = false.
Proof.
  unfold isPlain. intros H. apply andb_true_iff in H as [H1 H2].
  apply negb_true_iff in H2. split; [|exact H2]. unfold RuneSelf in *. lia.
Qed.

Lemma scanLeft_spaces (l s : string) :
  allBytes asciiSpace l = true -> scanLeft (l ++ s) = scanLeft s.
Proof.
  induction l as [|c l IH]; simpl; [reflexivity |].
  intros H. apply andb_true_iff in H as [Hc Hl].
  now rewrite (space_ascii c Hc), Hc, (IH Hl).
Qed.

Lemma scanLeft_plain (t : string) : startsPlain t = true -> scanLeft t = Stop t.
Proof.
  destruct t as [|a t]; simpl; [discriminate |].
  intros Ha. destruct (plain_inv a Ha) as [H1 H2]. now rewrite H1, H2.
Qed.

Lemma scanRight_spaces (r : string) : allBytes asciiSpace r = true -> scanRight r = Stop "".
Proof.
  induction r as [|c r IH]; simpl; [reflexivity |].
  intros H. apply andb_true_iff in H as [Hc Hr].
  now rewrite (IH Hr), (space_ascii c Hc), Hc.
Qed.

Lemma scanRight_plain (t r : string) :
  endsPlain t = true -> allBytes asciiSpace r = true -> scanRight (t ++ r) = Stop t.
Proof.
  intros Ht Hr. induction t as [|a t IH]; [discriminate Ht |].
  destruct t as [|b t].
  - cbn [endsPlain] in Ht. destruct (plain_inv a Ht) as [H1 H2].
    simpl. now rewrite (scanRight_spaces r Hr), H1, H2.
  - change (String a (String b t) ++ r)%string with (String a (String b t ++ r)).
    cbn [scanRight]. rewrite (IH Ht). reflexivity.
Qed.

Section Texts.
Context `{U : Unicode}.

Lemma ToLower_ascii (s : string) : allASCII s = true -> ToLower s = mapBytes lowerByte s.
Proof.
  intros Ha. unfold ToLower. rewrite Ha.
  destruct (existsByte isUpperByte s) eqn:Hu; cbn [negb]; [reflexivity |].
  now rewrite mapBytes_lower_id.
Qed.

Lemma ToUpper_ascii (s : string) : allASCII s = true -> ToUpper s = mapBytes upperByte s.
Proof.
  intros Ha. unfold ToUpper. rewrite Ha.
  destruct (existsByte isLowerByte s) eqn:Hu; cbn [negb]; [reflexivity |].
  now rewrite mapBytes_upper_id.
Qed.

Lemma TrimSpace_padded (l t r : string) :
  allBytes asciiSpace l = true -> allBytes asciiSpace r = true ->
  startsPlain t = true -> endsPlain t = true ->
  TrimSpace (l ++ t ++ r) = t.
Proof.
  intros Hl Hr Hs He. unfold TrimSpace.
  rewrite (scanLeft_spaces l _ Hl).
  assert (Hs' : startsPlain (t ++ r) = true) by (destruct t; [discriminate | exact Hs]).
  rewrite (scanLeft_plain _ Hs'). now rewrite (scanRight_plain t r He Hr).
Qed.

Lemma TrimSpace_blank (l : string) : allBytes asciiSpace l = true -> TrimSpace l = ""%string.
Proof.
  intros Hl. unfold TrimSpace.
  rewrite <- (append_nil_r l) at 1. rewrite (scanLeft_spaces l "" Hl). reflexivity.
Qed.

(** X4. The values of [os] and of [protocol] are compared without
    regard to the case of ASCII letters: for a string scalar whose text
    is ASCII, both variants accept [os] exactly when the text with
    [A-Z] lowered is [linux] or [windows], and [protocol] exactly when
    the text with [a-z] raised is [TCP] or [UDP]; otherwise one error
    is drawn, on the line of the value. *)
Theorem X4_case_of_letters (f : string) (n p node : Node) :
  Accumulate.isStr node = true ->
  allASCII (Value node) = true ->
  (field n "os" = Ok (Some node) ->
     (forall c, Accumulate.validateSpec c n
                = Ok (if osKnown (Value node) then c
                      else Accumulate.add c (Line node)
                             ("os has unsupported value " ++ quoted (Value node))))
     /\ (forall s, FailFast.specOs f n s
                   = if osKnown (Value node) then Ok (None, s)
                     else FailFast.fail f (Line node)
                            ("spec.os has unsupported value " ++ quoted (Value node)) s))
  /\ (field p "protocol" = Ok (Some node) ->
     (forall c, Accumulate.portProtocol c p
                = Ok (if protocolKnown (Value node) then c
                      else Accumulate.add c (Line node)
                             ("protocol has unsupported value " ++ quoted (Value node))))
     /\ (forall s, FailFast.portProtocol f p s
                   = if protocolKnown (Value node) then Ok (None, s)
                     else FailFast.fail f (Line node)
                            ("protocol has unsupported value " ++ quoted (Value node)) s)).
Proof.
  intros Hstr Ha. split.
  - intros Hf. pose proof (field_some_mapping _ _ _ Hf) as Hm.
    unfold Accumulate.validateSpec, FailFast.specOs, FailFast.withField, FailFast.getField.
    rewrite Hm, Hf. cbn [negb bind]. rewrite notStr_isStr, Hstr. cbn [negb]. cbv zeta.
    rewrite (ToLower_ascii _ Ha). fold (osKnown (Value node)).
    destruct (osKnown (Value node)); split; reflexivity.
  - intros Hf.
    unfold Accumulate.portProtocol, FailFast.portProtocol, FailFast.withField,
      FailFast.getField.
    rewrite Hf. cbn [bind]. rewrite notStr_isStr, Hstr. cbn [negb]. cbv zeta.
    rewrite (ToUpper_ascii _ Ha). fold (protocolKnown (Value node)).
    destruct (protocolKnown (Value node)); split; reflexivity.
Qed.

(** X5. The integer checks ignore ASCII white space around the text:
    when the text of a scalar is a core, which begins and ends with a
    byte that is ASCII and no white space, between runs of tab, line
    feed, vertical tab, form feed, carriage return or space, [asInt]
    and [toInt] return what [Atoi] makes of the core, and [asInt]
    returns the line of the node. *)
Theorem X5_blanks_around_integers (n : Node) (l t r : string) :
  isScalar n = true ->
  Value n = (l ++ t ++ r)%string ->
  allBytes asciiSpace l = true ->
  allBytes asciiSpace r = true ->
  startsPlain t = true ->
  endsPlain t = true ->
  TrimSpace (Value n) = t
  /\ Accumulate.asInt n = (Atoi t, Line n)
  /\ FailFast.toInt n = Atoi t.
Proof.
  intros Hsc Hv Hl Hr Hs He.
  assert (Ht : TrimSpace (Value n) = t) by (rewrite Hv; now apply TrimSpace_padded).
  split; [exact Ht | split].
  - unfold Accumulate.asInt. rewrite Hsc, Ht. cbn [negb]. now destruct (Atoi t).
  - unfold FailFast.toInt. now rewrite Ht.
Qed.

(** X6. A metadata name that is a string scalar is accepted by both
    variants exactly when its trimmed text is not empty.  A name of
    ASCII white space only, the empty name among them, is rejected on
    its line: by the accumulating variant with [name is required], the
    message of an absent key, by [main.go] with [metadata.name must be
    string]. *)
Theorem X6_blank_metadata_name (f : string) (n name : Node) :
  field n "name" = Ok (Some name) ->
  Accumulate.isStr name = true ->
  (forall c, Accumulate.metadataName c n
             = Ok (if (TrimSpace (Value name) =? "")%string
                   then Accumulate.add c (Line name) "name is required"
                   else c))
  /\ (forall s, FailFast.metadataName f n s
                = if (TrimSpace (Value name) =? "")%string
                  then FailFast.fail f (Line name) "metadata.name must be string" s
                  else Ok (None, s))
  /\ (allBytes asciiSpace (Value name) = true ->
      (TrimSpace (Value name) =? "")%string = true).
Proof.
  intros Hf Hstr. split; [|split].
  - intros c. unfold Accumulate.metadataName. rewrite Hf. cbn [bind]. rewrite Hstr.
    cbn [negb]. now destruct (TrimSpace (Value name) =? "")%string.
  - intros s. unfold FailFast.metadataName, FailFast.withField, FailFast.getField.
    rewrite Hf, notStr_isStr, Hstr. cbn [negb orb].
    now destruct (TrimSpace (Value name) =? "")%string.
  - intros Hb. rewrite (TrimSpace_blank _ Hb). reflexivity.
Qed.

End Texts.

(** *** Labels and containers *)

Section Lists.
Context `{U : Unicode}.

Lemma labelsLoop_errors (f : string) (content : list Node) :
  Nat.even (List.length content) = true ->
  exists new,
    (forall c, Accumulate.labelsLoop c content = Ok (extend c new))
    /\ List.map Accumulate.line new = List.map Line (notStrings content)
    /\ match notStrings content with
       | [] => forall s, FailFast.labelsLoop f content s = Ok (None, s)
       | b :: _ => exists text, forall s,
                     FailFast.labelsLoop f content s = FailFast.fail f (Line b) text s
       end.
Proof.
  revert content.
  apply (pairs_ind _ (fun content =>
    exists new,
      (forall c, Accumulate.labelsLoop c content = Ok (extend c new))
      /\ List.map Accumulate.line new = List.map Line (notStrings content)
      /\ match notStrings content with
         | [] => forall s, FailFast.labelsLoop f content s = Ok (None, s)
         | b :: _ => exists text, forall s,
                       FailFast.labelsLoop f content s = FailFast.fail f (Line b) text s
         end)).
  - exists []. repeat split. intros c. cbn [Accumulate.labelsLoop]. now rewrite extend_nil.
  - intros k v rest _ (new & Ha & Hl & Hm).
    cbn [Accumulate.labelsLoop FailFast.labelsLoop].
    unfold Accumulate.labelsEntry, FailFast.labelsEntry, FailFast.andThen, notStrings in *.
    cbn [filter]. rewrite !notStr_isStr.
    destruct (Accumulate.isStr k), (Accumulate.isStr v); cbn [negb].
    + exists new. repeat split; [exact Ha | exact Hl |].
      destruct (filter _ rest); [exact Hm |].
      destruct Hm as (text & Hm). exists text. exact Hm.
    + exists (verrOf (Line v) "labels value must be string" :: new). repeat split.
      * intros c. rewrite Ha, add_extend, extend_app. reflexivity.
      * cbn [List.map]. now rewrite Hl.
      * eexists. intros s. reflexivity.
    + exists (verrOf (Line k) "labels key must be string" :: new). repeat split.
      * intros c. rewrite Ha, add_extend, extend_app. reflexivity.
      * cbn [List.map]. now rewrite Hl.
      * eexists. intros s. reflexivity.
    + exists (verrOf (Line k) "labels key must be string"
              :: verrOf (Line v) "labels value must be string" :: new). repeat split.
      * intros c. rewrite Ha, !add_extend, !extend_app. reflexivity.
      * cbn [List.map]. now rewrite Hl.
      * eexists. intros s. reflexivity.
Qed.

(** X7. Under [labels], a mapping whose keys and values pair up, the
    accumulating variant records one error for each key or value that
    is no string scalar, in the order of the document and on the line
    of that node; [main.go] passes when there is none and otherwise
    fails on the line of the first of them. *)
Theorem X7_labels_one_error_each (f : string) (n labels : Node) :
  field n "labels" = Ok (Some labels) ->
  isMapping labels = true ->
  Nat.even (List.length (Content labels)) = true ->
  exists new,
    (forall c, Accumulate.metadataLabels c n = Ok (extend c new))
    /\ List.map Accumulate.line new = List.map Line (notStrings (Content labels))
    /\ match notStrings (Content labels) with
       | [] => forall s, FailFast.metadataLabels f n s = Ok (None, s)
       | b :: _ => exists text, forall s,
                     FailFast.metadataLabels f n s = FailFast.fail f (Line b) text s
       end.
Proof.
  intros Hf Hm Hev.
  destruct (labelsLoop_errors f (Content labels) Hev) as (new & Ha & Hl & Hfm).
  exists new.
  unfold Accumulate.metadataLabels, FailFast.metadataLabels, FailFast.withField,
    FailFast.getField.
  rewrite Hf. cbn [bind]. rewrite Hm. cbn [negb].
  split; [exact Ha | split; [exact Hl | exact Hfm]].
Qed.

Lemma containersLoop_each (f : string) (cs : list Node) :
  forallb parsed cs = true ->
  exists es,
    Forall2 (fun x e => forall c, Accumulate.validateContainer c x = Ok (extend c e)) cs es
    /\ (forall c, Accumulate.containersLoop c cs = Ok (extend c (List.concat es)))
    /\ ((forall s, FailFast.containersLoop f cs s = Ok (None, s))
        <-> Forall (fun x => forall s, FailFast.validateContainer f x s = Ok (None, s)) cs).
Proof.
  induction cs as [|x cs IH]; intros Hp.
  - exists []. repeat split; try constructor.
    intros c. cbn [Accumulate.containersLoop List.concat]. now rewrite extend_nil.
  - cbn [forallb] in Hp. apply andb_true_iff in Hp as [Hx Hcs].
    destruct (IH Hcs) as (es & H2 & Ha & Hm).
    destruct (rel_validateContainer f x false x (good_root x Hx))
      as (e & _ & He & Hfx); [discriminate |].
    exists (e :: es). split; [now constructor | split].
    + intros c. cbn [Accumulate.containersLoop List.concat].
      rewrite He. cbn [bind]. rewrite Ha. now rewrite extend_app.
    + cbn [FailFast.containersLoop]. unfold FailFast.andThen.
      destruct Hfx as [[Hpass _] | (er & l & _ & Hw & _)].
      * split.
        -- intros H. constructor; [exact Hpass |]. apply Hm.
           intros s. specialize (H s). now rewrite Hpass in H.
        -- intros H. inversion H as [|x' cs' _ Hrest]; subst.
           intros s. rewrite Hpass. now apply Hm.
      * split.
        -- intros H. specialize (H []). rewrite Hw in H. discriminate H.
        -- intros H. inversion H as [|x' cs' Hx' _]; subst.
           specialize (Hx' []). rewrite Hw in Hx'. discriminate Hx'.
Qed.

(** X8. Every container is judged on its own.  For the containers of a
    parsed document the accumulating variant records the errors of the
    first container, then those of the second, and so on, each list
    being what [validateContainer] records for that container alone;
    [main.go] passes the list exactly when it passes every container. *)
Theorem X8_containers_one_by_one (f : string) (n cs : Node) :
  parsed n = true ->
  field n "containers" = Ok (Some cs) ->
  isSequence cs = true ->
  Content cs <> [] ->
  exists es,
    Forall2 (fun x e => forall c, Accumulate.validateContainer c x = Ok (extend c e))
            (Content cs) es
    /\ (forall c, Accumulate.validateSpecContainers c n = Ok (extend c (List.concat es)))
    /\ ((forall s, FailFast.specContainers f n s = Ok (None, s))
        <-> Forall (fun x => forall s, FailFast.validateContainer f x s = Ok (None, s))
                   (Content cs)).
Proof.
  intros Hp Hf Hseq Hne.
  assert (Hcs : forallb parsed (Content cs) = true).
  { apply forallb_forall. intros x Hx.
    apply (parsed_inv cs); [|exact Hx].
    apply (parsed_inv n Hp). now apply field_found with "containers"%string. }
  destruct (containersLoop_each f (Content cs) Hcs) as (es & H2 & Ha & Hm).
  exists es. split; [exact H2 |].
  unfold Accumulate.validateSpecContainers, FailFast.specContainers, FailFast.withField,
    FailFast.getField.
  rewrite Hf. cbn [bind]. rewrite Hseq. cbn [negb].
  destruct (Content cs) as [|x rest] eqn:Hc; [contradiction |].
  split; [exact Ha | exact Hm].
Qed.

End Lists.

(** *** What [main.go] reports is what the other variant records first *)

Section First.
Context `{U : Unicode}.
Variable f : string.
Variable doc : Node.

Lemma rf_ok : reportsFirst f (fun c => Ok c) FailFast.pass.
Proof. left. split; reflexivity. Qed.

Lemma rf_violation n tA tF :
  good doc n ->
  reportsFirst f (fun c => Ok (Accumulate.add c (Line n) tA)) (FailFast.fail f (Line n) tF).
Proof.
  intros Hg. pose proof (good_line _ _ Hg) as Hl.
  right. exists (verrOf (Line n) tA), [], "validation failed"%string,
    (f ++ ":" ++ itoa (Line n) ++ " " ++ tF ++ nl)%string.
  split; [|split].
  - exists tF. cbn [Accumulate.line verrOf]. apply Z.ltb_lt in Hl. now rewrite Hl.
  - reflexivity.
  - intros s. now apply fail_line.
Qed.

Lemma rf_missing key fld :
  reportsFirst f (fun c => Ok (Accumulate.addRequired c key)) (FailFast.failRequired f fld).
Proof.
  right. exists (verrOf 0 (key ++ " is required")), [], "required field missing"%string,
    (f ++ ": " ++ fld ++ " is required" ++ nl)%string.
  split; [|split].
  - exists (fld ++ " is required")%string. cbn [Accumulate.line verrOf].
    now rewrite append_assoc.
  - reflexivity.
  - reflexivity.
Qed.

Lemma rf_ext a a' m m' :
  (forall c, a c = a' c) -> (forall s, m s = m' s) ->
  reportsFirst f a' m' -> reportsFirst f a m.
Proof.
  intros Ha Hm [[H1 H2] | (e & rest & er & l & Hl & H1 & H2)].
  - left. split; [intros c; now rewrite Ha | intros s; now rewrite Hm].
  - right. exists e, rest, er, l.
    split; [exact Hl | split; [intros c; now rewrite Ha | intros s; now rewrite Hm]].
Qed.

Lemma rf_bind a1 a2 m1 m2 :
  reportsFirst f a1 m1 -> reportsFirst f a2 m2 ->
  reportsFirst f (fun c => c1 <- a1 c ;; a2 c1) (FailFast.andThen m1 m2).
Proof.
  intros [[Ha1 Hm1] | (e1 & r1 & er1 & l1 & Hl1 & Ha1 & Hm1)] H2.
  - destruct H2 as [[Ha2 Hm2] | (e2 & r2 & er2 & l2 & Hl2 & Ha2 & Hm2)].
    + left. split.
      * intros c. rewrite Ha1. cbn [bind]. apply Ha2.
      * intros s. unfold FailFast.andThen. rewrite Hm1. apply Hm2.
    + right. exists e2, r2, er2, l2. split; [exact Hl2 | split].
      * intros c. rewrite Ha1. cbn [bind]. apply Ha2.
      * intros s. unfold FailFast.andThen. rewrite Hm1. apply Hm2.
  - assert (Hex : exists new2, forall c, a2 c = Ok (extend c new2)).
    { destruct H2 as [[Ha2 _] | (e2 & r2 & _ & _ & _ & Ha2 & _)].
      - exists []. intros c. now rewrite extend_nil.
      - now exists (e2 :: r2). }
    destruct Hex as (new2 & Ha2).
    right. exists e1, (r1 ++ new2)%list, er1, l1. split; [exact Hl1 | split].
    + intros c. rewrite Ha1. cbn [bind]. rewrite Ha2. now rewrite extend_app.
    + intros s. unfold FailFast.andThen. now rewrite Hm1.
Qed.

Ltac first_leaf :=
  first [ apply rf_ok | apply rf_violation; assumption | apply rf_missing ].

Lemma rf_metadataName n :
  good doc n ->
  reportsFirst f (fun c => Accumulate.metadataName c n) (FailFast.metadataName f n).
Proof.
  intros Hg. unfold Accumulate.metadataName, FailFast.metadataName.
  open_field Hg "name"%string; [first_leaf |].
  rewrite notStr_isStr.
  destruct (Accumulate.isStr v); cbn [negb orb]; [|first_leaf].
  destruct (TrimSpace (Value v) =? "")%string; first_leaf.
Qed.

Lemma rf_metadataNamespace n :
  good doc n ->
  reportsFirst f (fun c => Accumulate.metadataNamespace c n) (FailFast.metadataNamespace f n).
Proof.
  intros Hg. unfold Accumulate.metadataNamespace, FailFast.metadataNamespace.
  open_field Hg "namespace"%string; [first_leaf |].
  rewrite notStr_isStr.
  destruct (Accumulate.isStr v); cbn [negb]; first_leaf.
Qed.

Lemma rf_labelsEntry k v :
  good doc k -> good doc v ->
  reportsFirst f (fun c => Ok (Accumulate.labelsEntry c k v)) (FailFast.labelsEntry f k v).
Proof.
  intros Hk Hv.
  apply rf_ext with
    (a' := fun c =>
       c1 <- (fun c => Ok (if negb (Accumulate.isStr k)
                           then Accumulate.add c (Line k) "labels key must be string"
                           else c)) c ;;
       (fun c => Ok (if negb (Accumulate.isStr v)
                     then Accumulate.add c (Line v) "labels value must be string"
                     else c)) c1)
    (m' := FailFast.andThen
       (if negb (Accumulate.isStr k)
        then FailFast.fail f (Line k) "metadata.labels key must be string"
        else FailFast.pass)
       (if negb (Accumulate.isStr v)
        then FailFast.fail f (Line v) "metadata.labels value must be string"
        else FailFast.pass)).
  - reflexivity.
  - intros s. unfold FailFast.labelsEntry, FailFast.andThen. rewrite !notStr_isStr.
    destruct (Accumulate.isStr k), (Accumulate.isStr v); reflexivity.
  - apply rf_bind.
    + destruct (Accumulate.isStr k); cbn [negb]; first_leaf.
    + destruct (Accumulate.isStr v); cbn [negb]; first_leaf.
Qed.

Lemma rf_labelsLoop content :
  Nat.even (List.length content) = true ->
  (forall x, In x content -> good doc x) ->
  reportsFirst f (fun c => Accumulate.labelsLoop c content) (FailFast.labelsLoop f content).
Proof.
  intros Hev. revert content Hev.
  apply (pairs_ind _ (fun content =>
    (forall x, In x content -> good doc x) ->
    reportsFirst f (fun c => Accumulate.labelsLoop c content)
                   (FailFast.labelsLoop f content))).
  - intros _. apply rf_ok.
  - intros k v rest _ IH Hin.
    apply (rf_bind (fun c => Ok (Accumulate.labelsEntry c k v))
             (fun c => Accumulate.labelsLoop c rest)).
    + apply rf_labelsEntry; [apply Hin; now left | apply Hin; right; now left].
    + apply IH. intros x Hx. apply Hin. right; now right.
Qed.

Lemma rf_metadataLabels n :
  good doc n ->
  reportsFirst f (fun c => Accumulate.metadataLabels c n) (FailFast.metadataLabels f n).
Proof.
  intros Hg. unfold Accumulate.metadataLabels, FailFast.metadataLabels.
  open_field Hg "labels"%string; [first_leaf |].
  destruct (isMapping v) eqn:Hm; cbn [negb]; [|first_leaf].
  apply rf_labelsLoop.
  - destruct Hv as [_ Hp]. now apply (parsed_inv v Hp).
  - intros x Hx. now apply good_child with v.
Qed.

Lemma rf_validateMetadata n :
  good doc n ->
  reportsFirst f (fun c => Accumulate.validateMetadata c n) (FailFast.validateMetadata f n).
Proof.
  intros Hg. unfold Accumulate.validateMetadata, FailFast.validateMetadata.
  destruct (isMapping n); cbn [negb]; [|first_leaf].
  apply (rf_bind (fun c => Accumulate.metadataName c n)); [now apply rf_metadataName |].
  apply (rf_bind (fun c => Accumulate.metadataNamespace c n));
    [now apply rf_metadataNamespace | now apply rf_metadataLabels].
Qed.

Lemma rf_probePath hg pre :
  good doc hg ->
  reportsFirst f (fun c => Accumulate.probePath c hg) (FailFast.probePath f hg pre).
Proof.
  intros Hg. unfold Accumulate.probePath, FailFast.probePath.
  open_field Hg "path"%string; [first_leaf |].
  rewrite notStr_isStr.
  destruct (Accumulate.isStr v); cbn [negb]; [|first_leaf].
  destruct (HasPrefix (Value v) "/"); cbn [negb]; first_leaf.
Qed.

Lemma rf_probePort hg pre :
  good doc hg ->
  reportsFirst f (fun c => Accumulate.probePort c hg) (FailFast.probePort f hg pre).
Proof.
  intros Hg. unfold Accumulate.probePort, FailFast.probePort.
  open_field Hg "port"%string; [first_leaf |].
  unfold Accumulate.asInt, FailFast.toInt.
  destruct (isScalar v); cbn [negb]; [|first_leaf].
  destruct (Atoi (TrimSpace (Value v))) as [p|]; [|first_leaf].
  destruct ((p <=? 0) || (65536 <=? p)); first_leaf.
Qed.

Lemma rf_validateProbe n key :
  good doc n ->
  reportsFirst f (fun c => Accumulate.validateProbe c n key)
                 (FailFast.validateProbe f n ("containers." ++ key)).
Proof.
  intros Hg. unfold Accumulate.validateProbe, FailFast.validateProbe.
  destruct (isMapping n); cbn [negb]; [|first_leaf].
  open_field Hg "httpGet"%string; [first_leaf |].
  destruct (isMapping v); cbn [negb]; [|first_leaf].
  apply rf_bind; [now apply rf_probePath | now apply rf_probePort].
Qed.

Lemma rf_portNumber cp :
  good doc cp ->
  reportsFirst f (fun c => Ok (Accumulate.portNumber c cp)) (FailFast.portNumber f cp).
Proof.
  intros Hv. unfold Accumulate.portNumber, FailFast.portNumber.
  unfold Accumulate.asInt, FailFast.toInt.
  destruct (isScalar cp); cbn [negb]; [|first_leaf].
  destruct (Atoi (TrimSpace (Value cp))) as [p|]; [|first_leaf].
  destruct ((p <=? 0) || (65536 <=? p)); first_leaf.
Qed.

Lemma rf_portProtocol n :
  good doc n ->
  reportsFirst f (fun c => Accumulate.portProtocol c n) (FailFast.portProtocol f n).
Proof.
  intros Hg. unfold Accumulate.portProtocol, FailFast.portProtocol.
  open_field Hg "protocol"%string; [first_leaf |].
  rewrite notStr_isStr.
  destruct (Accumulate.isStr v); cbn [negb]; [|first_leaf].
  cbv zeta.
  destruct ((ToUpper (Value v) =? "TCP")%string || (ToUpper (Value v) =? "UDP")%string);
    first_leaf.
Qed.

Lemma rf_validateContainerPort n :
  good doc n ->
  reportsFirst f (fun c => Accumulate.validateContainerPort c n)
                 (FailFast.validateContainerPort f n).
Proof.
  intros Hg. unfold Accumulate.validateContainerPort, FailFast.validateContainerPort.
  destruct (isMapping n); cbn [negb]; [|first_leaf].
  open_field Hg "containerPort"%string; [first_leaf |].
  apply (rf_bind (fun c => Ok (Accumulate.portNumber c v))
           (fun c => Accumulate.portProtocol c n)).
  - now apply rf_portNumber.
  - now apply rf_portProtocol.
Qed.

Lemma rf_rrEntry pre k v :
  good doc k -> good doc v ->
  entryAgree k v = true ->
  reportsFirst f (fun c => Ok (Accumulate.rrEntry c k v)) (FailFast.rrEntry f pre k v).
Proof.
  intros Hk Hv Hag.
  unfold Accumulate.rrEntry, FailFast.rrEntry, entryAgree in *.
  rewrite notStr_isStr in *. unfold FailFast.toInt in *.
  destruct (Accumulate.isStr k); [|discriminate Hag].
  cbn [negb andb] in *.
  destruct (Value k =? "cpu")%string; cbn [negb orb] in *.
  - destruct (Accumulate.isInt v), (isScalar v);
      try destruct (Atoi (TrimSpace (Value v)));
      cbn [negb andb Bool.eqb] in *; try discriminate Hag; first_leaf.
  - destruct (Value k =? "memory")%string; [|first_leaf].
    rewrite notStr_isStr.
    destruct (Accumulate.isStr v); cbn [negb]; [|first_leaf].
    destruct (memMatch (Value v)); cbn [negb]; first_leaf.
Qed.

Lemma rf_rrLoop pre content :
  Nat.even (List.length content) = true ->
  (forall x, In x content -> good doc x) ->
  rrAgree content = true ->
  reportsFirst f (fun c => Accumulate.rrLoop c content) (FailFast.rrLoop f pre content).
Proof.
  intros Hev. revert content Hev.
  apply (pairs_ind _ (fun content =>
    (forall x, In x content -> good doc x) ->
    rrAgree content = true ->
    reportsFirst f (fun c => Accumulate.rrLoop c content)
                   (FailFast.rrLoop f pre content))).
  - intros _ _. apply rf_ok.
  - intros k v rest _ IH Hin Hag. simpl in Hag. apply andb_true_iff in Hag as [He Hr].
    apply (rf_bind (fun c => Ok (Accumulate.rrEntry c k v))
             (fun c => Accumulate.rrLoop c rest)).
    + apply rf_rrEntry; [apply Hin; now left | apply Hin; right; now left | exact He].
    + apply IH; [|exact Hr]. intros x Hx. apply Hin. right; now right.
Qed.

Lemma rf_validateRRSet pre n :
  good doc n ->
  negb (isMapping n) || rrAgree (Content n) = true ->
  reportsFirst f (fun c => Accumulate.validateRRSet c n) (FailFast.validateRRSet f n pre).
Proof.
  intros Hg Hag. unfold Accumulate.validateRRSet, FailFast.validateRRSet.
  destruct (isMapping n) eqn:Hm; cbn [negb orb] in *; [|first_leaf].
  apply rf_rrLoop.
  - destruct Hg as [_ Hp]. now apply (parsed_inv n Hp).
  - intros x Hx. now apply good_child with n.
  - exact Hag.
Qed.

Lemma rf_resourcesSet n key :
  good doc n ->
  setAgree n key = true ->
  reportsFirst f (fun c => Accumulate.resourcesSet key c n) (FailFast.resourcesSet f n key).
Proof.
  intros Hg Hag. unfold Accumulate.resourcesSet, FailFast.resourcesSet, setAgree in *.
  open_field Hg key; [first_leaf |].
  rewrite Hf in Hag. now apply rf_validateRRSet.
Qed.

Lemma rf_validateResources n :
  good doc n ->
  setAgree n "limits" && setAgree n "requests" = true ->
  reportsFirst f (fun c => Accumulate.validateResources c n) (FailFast.validateResources f n).
Proof.
  intros Hg Hag. apply andb_true_iff in Hag as [Hl Hr].
  unfold Accumulate.validateResources, FailFast.validateResources.
  destruct (isMapping n); cbn [negb]; [|first_leaf].
  apply (rf_bind (fun c => Accumulate.resourcesSet "limits" c n)
           (fun c => Accumulate.resourcesSet "requests" c n));
    now apply rf_resourcesSet.
Qed.

Lemma rf_containerName n :
  good doc n ->
  reportsFirst f (fun c => Accumulate.containerName c n) (FailFast.containerName f n).
Proof.
  intros Hg. unfold Accumulate.containerName, FailFast.containerName.
  open_field Hg "name"%string; [first_leaf |].
  rewrite notStr_isStr.
  destruct (Accumulate.isStr v); cbn [negb]; [|first_leaf].
  destruct (snakeMatch (Value v)) eqn:Hs; cbn [negb].
  - destruct (snake_trim (Value v) Hs) as [Ht Hne]. rewrite Ht.
    apply String.eqb_neq in Hne. rewrite Hne. first_leaf.
  - destruct (TrimSpace (Value v) =? "")%string; first_leaf.
Qed.

Lemma rf_containerImage n :
  good doc n ->
  reportsFirst f (fun c => Accumulate.containerImage c n) (FailFast.containerImage f n).
Proof.
  intros Hg. unfold Accumulate.containerImage, FailFast.containerImage.
  open_field Hg "image"%string; [first_leaf |].
  rewrite notStr_isStr.
  destruct (Accumulate.isStr v); cbn [negb]; [|first_leaf].
  destruct (HasPrefix (Value v) "registry.bigbrother.io/") eqn:Hp; cbn [negb]; [|first_leaf].
  cbv zeta. rewrite (registry_slash _ Hp). cbn [orb].
  destruct (ContainsByte (sliceFrom (Value v) (LastIndexByte (Value v) "/" + 1)) ":");
    cbn [negb]; first_leaf.
Qed.

Lemma rf_portsLoop ps :
  (forall x, In x ps -> good doc x) ->
  reportsFirst f (fun c => Accumulate.portsLoop c ps) (FailFast.portsLoop f ps).
Proof.
  induction ps as [|p rest IH]; intros Hin.
  - apply rf_ok.
  - apply (rf_bind (fun c => Accumulate.validateContainerPort c p)
             (fun c => Accumulate.portsLoop c rest)).
    + apply rf_validateContainerPort. apply Hin. now left.
    + apply IH. intros x Hx. apply Hin. now right.
Qed.

Lemma rf_containerPorts n :
  good doc n ->
  reportsFirst f (fun c => Accumulate.containerPorts c n) (FailFast.containerPorts f n).
Proof.
  intros Hg. unfold Accumulate.containerPorts, FailFast.containerPorts.
  open_field Hg "ports"%string; [first_leaf |].
  destruct (isSequence v); cbn [negb]; [|first_leaf].
  apply rf_portsLoop. intros x Hx. now apply good_child with v.
Qed.

Lemma rf_containerProbe n key :
  good doc n ->
  reportsFirst f (fun c => Accumulate.containerProbe key c n)
                 (FailFast.containerProbe f n key).
Proof.
  intros Hg. unfold Accumulate.containerProbe, FailFast.containerProbe.
  open_field Hg key; [first_leaf |].
  now apply rf_validateProbe.
Qed.

Lemma rf_containerResources n :
  good doc n ->
  containerAgree n = true ->
  reportsFirst f (fun c => Accumulate.containerResources c n)
                 (FailFast.containerResources f n).
Proof.
  intros Hg Hag.
  unfold Accumulate.containerResources, FailFast.containerResources, containerAgree in *.
  open_field Hg "resources"%string; [first_leaf |].
  rewrite Hf in Hag. now apply rf_validateResources.
Qed.

Lemma rf_validateContainer n :
  good doc n ->
  containerAgree n = true ->
  reportsFirst f (fun c => Accumulate.validateContainer c n) (FailFast.validateContainer f n).
Proof.
  intros Hg Hag. unfold Accumulate.validateContainer, FailFast.validateContainer.
  destruct (isMapping n); cbn [negb]; [|first_leaf].
  apply (rf_bind (fun c => Accumulate.containerName c n)); [now apply rf_containerName |].
  apply (rf_bind (fun c => Accumulate.containerImage c n)); [now apply rf_containerImage |].
  apply (rf_bind (fun c => Accumulate.containerPorts c n)); [now apply rf_containerPorts |].
  apply (rf_bind (fun c => Accumulate.containerProbe "readinessProbe" c n));
    [now apply rf_containerProbe |].
  apply (rf_bind (fun c => Accumulate.containerProbe "livenessProbe" c n));
    [now apply rf_containerProbe |].
  now apply rf_containerResources.
Qed.

Lemma rf_containersLoop cs :
  (forall x, In x cs -> good doc x) ->
  forallb containerAgree cs = true ->
  reportsFirst f (fun c => Accumulate.containersLoop c cs) (FailFast.containersLoop f cs).
Proof.
  induction cs as [|x rest IH]; intros Hin Hag.
  - apply rf_ok.
  - cbn [forallb] in Hag. apply andb_true_iff in Hag as [Hx Hr].
    apply (rf_bind (fun c => Accumulate.validateContainer c x)
             (fun c => Accumulate.containersLoop c rest)).
    + apply rf_validateContainer; [apply Hin; now left | exact Hx].
    + apply IH; [|exact Hr]. intros y Hy. apply Hin. now right.
Qed.

Lemma rf_specContainers n :
  good doc n ->
  specAgree n = true ->
  reportsFirst f (fun c => Accumulate.validateSpecContainers c n)
                 (FailFast.specContainers f n).
Proof.
  intros Hg Hag.
  unfold Accumulate.validateSpecContainers, FailFast.specContainers, specAgree in *.
  open_field Hg "containers"%string; [first_leaf |].
  rewrite Hf in Hag. cbn [found] in Hag.
  destruct (isSequence v); cbn [negb orb] in *; [|first_leaf].
  assert (Hin : forall x, In x (Content v) -> good doc x)
    by (intros x Hx; now apply good_child with v).
  destruct (Content v) as [|x rest]; [first_leaf |].
  now apply rf_containersLoop.
Qed.

Lemma rf_spec n :
  good doc n ->
  specAgree n = true ->
  reportsFirst f (fun c => c1 <- Accumulate.validateSpec c n ;;
                           Accumulate.validateSpecContainers c1 n)
                 (FailFast.validateSpec f n).
Proof.
  intros Hg Hag. destruct (isMapping n) eqn:Hm.
  - apply rf_ext with
      (a' := fun c => c1 <- Accumulate.validateSpec c n ;;
                      Accumulate.validateSpecContainers c1 n)
      (m' := FailFast.andThen (FailFast.specOs f n) (FailFast.specContainers f n)).
    + reflexivity.
    + intros s. unfold FailFast.validateSpec. now rewrite Hm.
    + apply rf_bind; [|now apply rf_specContainers].
      unfold Accumulate.validateSpec, FailFast.specOs. rewrite Hm; cbn [negb].
      open_field Hg "os"%string; [first_leaf |].
      rewrite notStr_isStr.
      destruct (Accumulate.isStr v); cbn [negb]; [|first_leaf].
      cbv zeta.
      destruct ((ToLower (Value v) =? "linux")%string
                || (ToLower (Value v) =? "windows")%string); first_leaf.
  - pose proof (good_line _ _ Hg) as Hl.
    right. exists (verrOf (Line n) "spec must be object"),
      [verrOf 0 "containers is required"], "validation failed"%string,
      (f ++ ":" ++ itoa (Line n) ++ " " ++ "spec must be object" ++ nl)%string.
    split; [|split].
    + exists "spec must be object"%string. cbn [Accumulate.line verrOf].
      apply Z.ltb_lt in Hl. now rewrite Hl.
    + intros c. unfold Accumulate.validateSpec, Accumulate.validateSpecContainers.
      rewrite Hm. cbn [negb bind]. rewrite (field_not_mapping n "containers" Hm).
      cbn [bind]. rewrite addRequired_extend, add_extend, extend_app. reflexivity.
    + intros s. unfold FailFast.validateSpec. rewrite Hm. cbn [negb].
      now apply fail_line.
Qed.

End First.

Section FirstClaim.
Context `{U : Unicode}.

(** X9. Inside the metadata, a probe, a port entry and a container of a
    parsed document, [main.go] and the accumulating variant run the same
    checks in the same order: [main.go] returns [nil] exactly when the
    other records nothing, and otherwise the one line it writes carries
    the line number of the error the other records first (or none when
    that error has none).  The same holds for a container, and for
    [spec] with [validateSpec] followed by [validateSpecContainers] on
    the one side and [validateSpec] of [main.go] on the other, when the
    resource sets are ones the two variants judge alike. *)
Theorem X9_reports_the_first_error (f key : string) (n : Node) :
  parsed n = true ->
  reportsFirst f (fun c => Accumulate.validateMetadata c n) (FailFast.validateMetadata f n)
  /\ reportsFirst f (fun c => Accumulate.validateProbe c n key)
                    (FailFast.validateProbe f n ("containers." ++ key))
  /\ reportsFirst f (fun c => Accumulate.validateContainerPort c n)
                    (FailFast.validateContainerPort f n)
  /\ (containerAgree n = true ->
      reportsFirst f (fun c => Accumulate.validateContainer c n)
                     (FailFast.validateContainer f n))
  /\ (specAgree n = true ->
      reportsFirst f (fun c => c1 <- Accumulate.validateSpec c n ;;
                               Accumulate.validateSpecContainers c1 n)
                     (FailFast.validateSpec f n)).
Proof.
  intros Hp. pose proof (good_root n Hp) as Hg.
  split; [now apply rf_validateMetadata with n |].
  split; [now apply rf_validateProbe with n |].
  split; [now apply rf_validateContainerPort with n |].
  split; intros Hag; [now apply rf_validateContainer with n | now apply rf_spec with n].
Qed.

End FirstClaim.

(** *** Decimal numerals *)

Lemma digit_byte (d : Z) :
  0 <= d <= 9 -> byte (digitChar d) = 48 + d /\ isDigit (digitChar d) = true.
Proof.
  intros Hd.
  assert (H : d = 0 \/ d = 1 \/ d = 2 \/ d = 3 \/ d = 4 \/ d = 5 \/ d = 6 \/ d = 7
              \/ d = 8 \/ d = 9) by lia.
  repeat (destruct H as [-> | H]; [split; reflexivity |]).
  subst d. split; reflexivity.
Qed.

Lemma digitsValue_app (x y : string) (a : Z) :
  digitsValue a (x ++ y) = digitsValue (digitsValue a x) y.
Proof. revert a. induction x as [|c x IH]; intros a; simpl; [reflexivity | apply IH]. Qed.

Lemma allDigits_app (x y : string) :
  allDigits (x ++ y) = allDigits x && allDigits y.
Proof.
  induction x as [|c x IH]; simpl; [reflexivity |]. now rewrite IH, andb_assoc.
Qed.

Lemma utoa_acc (fuel : nat) (n : Z) (acc : string) :
  utoa fuel n acc = (utoa fuel n "" ++ acc)%string.
Proof.
  revert n acc. induction fuel as [|fuel IH]; intros n acc; [reflexivity |].
  cbn [utoa]. cbv zeta.
  destruct (n / 10 =? 0); [reflexivity |].
  rewrite (IH (n / 10) (String (digitChar (n mod 10)) acc)).
  rewrite (IH (n / 10) (String (digitChar (n mod 10)) "")).
  now rewrite append_assoc.
Qed.

Lemma utoa_spec (fuel : nat) (n : Z) :
  0 <= n < 2 ^ Z.of_nat (S fuel) ->
  digitsValue 0 (utoa (S fuel) n "") = n
  /\ allDigits (utoa (S fuel) n "") = true
  /\ utoa (S fuel) n "" <> ""%string.
Proof.
  revert n. induction fuel as [|fuel IH]; intros n Hn.
  - assert (Hd : 0 <= n mod 10 <= 9) by (pose proof (Z.mod_pos_bound n 10 ltac:(lia)); lia).
    destruct (digit_byte _ Hd) as [Hb Hi].
    change (2 ^ Z.of_nat 1) with 2 in Hn.
    assert (Hq : n / 10 = 0) by (apply Z.div_small; lia).
    assert (Hm : n mod 10 = n) by (apply Z.mod_small; lia).
    cbn [utoa]. cbv zeta. rewrite Hq. cbn [Z.eqb].
    cbn [digitsValue allDigits]. rewrite Hb, Hi, Hm.
    repeat split; [lia | discriminate].
  - assert (Hd : 0 <= n mod 10 <= 9) by (pose proof (Z.mod_pos_bound n 10 ltac:(lia)); lia).
    destruct (digit_byte _ Hd) as [Hb Hi].
    change (utoa (S (S fuel)) n "")
      with (if n / 10 =? 0 then String (digitChar (n mod 10)) ""
            else utoa (S fuel) (n / 10) (String (digitChar (n mod 10)) "")).
    destruct (n / 10 =? 0) eqn:Hq.
    + apply Z.eqb_eq in Hq.
      assert (Hm : n mod 10 = n).
      { pose proof (Z.div_mod n 10 ltac:(lia)) as Hdm. lia. }
      cbn [digitsValue allDigits]. rewrite Hb, Hi, Hm.
      repeat split; [lia | discriminate].
    + assert (Hn' : 0 <= n / 10 < 2 ^ Z.of_nat (S fuel)).
      { split; [apply Z.div_pos; lia |].
        apply Z.div_lt_upper_bound; [lia |].
        replace (Z.of_nat (S (S fuel))) with (Z.of_nat (S fuel) + 1) in Hn by lia.
        rewrite Z.pow_add_r in Hn by lia. change (2 ^ 1) with 2 in Hn.
        assert (0 < 2 ^ Z.of_nat (S fuel)) by (apply Z.pow_pos_nonneg; lia).
        lia. }
      destruct (IH (n / 10) Hn') as (Hv & Ha & Hne).
      rewrite utoa_acc. rewrite digitsValue_app, allDigits_app, Hv, Ha.
      cbn [digitsValue allDigits andb]. rewrite Hb, Hi.
      repeat split.
      * pose proof (Z.div_mod n 10 ltac:(lia)) as Hdm. lia.
      * destruct (utoa (S fuel) (n / 10) ""); [contradiction | discriminate].
Qed.

Lemma itoa_spec (n : Z) :
  0 <= n ->
  digitsValue 0 (itoa n) = n /\ allDigits (itoa n) = true /\ itoa n <> ""%string.
Proof.
  intros Hn. unfold itoa.
  assert (Hlt : (n <? 0) = false) by lia. rewrite Hlt.
  apply utoa_spec. split; [exact Hn |].
  pose proof (Z.log2_nonneg n) as Hl.
  replace (Z.of_nat (S (Z.to_nat (Z.log2 n)))) with (Z.succ (Z.log2 n)) by lia.
  destruct (Z.eq_dec n 0) as [-> | Hz]; [reflexivity |].
  apply Z.log2_spec. lia.
Qed.

Lemma digit_plain (c : ascii) : isDigit c = true -> isPlain c = true.
Proof.
  unfold isDigit, isPlain, asciiSpace, RuneSelf. cbv zeta. intros H.
  apply andb_true_iff. split; [lia |]. apply negb_true_iff. lia.
Qed.

Lemma digits_edges (s : string) :
  allDigits s = true -> s <> ""%string -> startsPlain s = true /\ endsPlain s = true.
Proof.
  intros Ha Hne. split.
  - destruct s as [|c s]; [contradiction |]. simpl in Ha |- *.
    apply andb_true_iff in Ha as [Hc _]. now apply digit_plain.
  - induction s as [|c s IH]; [contradiction |].
    simpl in Ha. apply andb_true_iff in Ha as [Hc Hs].
    destruct s as [|d s]; [now apply digit_plain |].
    cbn [endsPlain]. apply IH; [exact Hs | discriminate].
Qed.

Lemma digit_no_sign (c : ascii) :
  isDigit c = true -> Ascii.eqb c "-" = false /\ Ascii.eqb c "+" = false.
Proof.
  intros Hc. split.
  - destruct (Ascii.eqb c "-") eqn:He; [|reflexivity].
    apply Ascii.eqb_eq in He. subst c. discriminate Hc.
  - destruct (Ascii.eqb c "+") eqn:He; [|reflexivity].
    apply Ascii.eqb_eq in He. subst c. discriminate Hc.
Qed.

Lemma Atoi_itoa (n : Z) : 0 <= n <= maxInt -> Atoi (itoa n) = Some n.
Proof.
  intros [Hn Hmax]. destruct (itoa_spec n Hn) as (Hv & Ha & Hne).
  unfold Atoi. destruct (itoa n) as [|c r] eqn:Hs; [contradiction |].
  pose proof Ha as Ha'. simpl in Ha'. apply andb_true_iff in Ha' as [Hc _].
  destruct (digit_no_sign c Hc) as [H1 H2]. rewrite H1, H2.
  rewrite Ha, Hv.
  assert (Hr : (minInt <=? n) && (n <=? maxInt) = true).
  { apply andb_true_iff. unfold minInt, maxInt in *. split; lia. }
  now rewrite Hr.
Qed.

Section Numerals.
Context `{U : Unicode}.

Lemma TrimSpace_itoa (n : Z) : 0 <= n -> TrimSpace (itoa n) = itoa n.
Proof.
  intros Hn. destruct (itoa_spec n Hn) as (_ & Ha & Hne).
  destruct (digits_edges _ Ha Hne) as [Hs He].
  pose proof (TrimSpace_padded "" (itoa n) "" eq_refl eq_refl Hs He) as H.
  cbn [append] in H. now rewrite append_nil_r in H.
Qed.

(** X10. A number from 0 up to the largest [int], written as a decimal
    numeral, is read back as itself by [asInt] and [toInt], under any
    tag.  So a port entry whose [containerPort] is the numeral of [p]
    draws no error in either variant when [1 <= p <= 65535], and the
    range violation on its line otherwise. *)
Theorem X10_decimal_ports (f t : string) (l p : Z) :
  0 <= p <= maxInt ->
  Accumulate.asInt (numeral t l p) = (Some p, l)
  /\ FailFast.toInt (numeral t l p) = Some p
  /\ (forall c, Accumulate.validateContainerPort c (portOf t l p)
                = Ok (if outOfRange p
                      then Accumulate.add c l "containerPort value out of range"
                      else c))
  /\ (forall s, FailFast.validateContainerPort f (portOf t l p) s
                = if outOfRange p
                  then FailFast.fail f l "containerPort value out of range" s
                  else Ok (None, s))
  /\ (outOfRange p = false <-> 1 <= p <= 65535).
Proof.
  intros Hp.
  assert (Hint : Atoi (TrimSpace (Value (numeral t l p))) = Some p).
  { cbn [numeral Value]. rewrite TrimSpace_itoa by lia. now apply Atoi_itoa. }
  assert (HA : Accumulate.asInt (numeral t l p) = (Some p, l)).
  { unfold Accumulate.asInt. now rewrite Hint. }
  split; [exact HA | split; [exact Hint | split; [|split]]].
  - intros c. unfold Accumulate.validateContainerPort, portOf.
    cbn [isMapping mapN Kind_ Kind_eqb negb field fieldLoop Content isScalar strN Value
         String.eqb Ascii.eqb Bool.eqb andb bind].
    unfold Accumulate.portNumber. rewrite HA. fold (outOfRange p).
    unfold Accumulate.portProtocol.
    cbn [isMapping mapN Kind_ Kind_eqb negb field fieldLoop Content isScalar strN Value
         String.eqb Ascii.eqb Bool.eqb andb bind].
    now destruct (outOfRange p).
  - intros s. unfold FailFast.validateContainerPort, FailFast.withField, FailFast.getField,
      portOf.
    cbn [isMapping mapN Kind_ Kind_eqb negb field fieldLoop Content isScalar strN Value
         String.eqb Ascii.eqb Bool.eqb andb].
    unfold FailFast.andThen, FailFast.portNumber.
    change (isScalar (numeral t l p)) with true. cbn [negb].
    unfold FailFast.toInt at 1. rewrite Hint. fold (outOfRange p).
    destruct (outOfRange p); [reflexivity |].
    unfold FailFast.portProtocol, FailFast.withField, FailFast.getField.
    cbn [isMapping mapN Kind_ Kind_eqb negb field fieldLoop Content isScalar strN Value
         String.eqb Ascii.eqb Bool.eqb andb].
    reflexivity.
  - apply outOfRange_bounds.
Qed.

End Numerals.

Section AbsentSpec.
Context `{U : Unicode}.

(** X11. When [spec] is absent from a parsed document the accumulating
    variant records for it the one error [spec is required], without a
    line, between the errors of [apiVersion] and [kind] and those of
    metadata, and does not run the check of [containers]; [main.go]
    reaches [spec] only when metadata passes. *)
Theorem X11_absent_spec (f : string) (doc : Node) :
  parsed doc = true ->
  isMapping doc = true ->
  field doc "spec" = Ok None ->
  (exists eTop eMeta,
      (forall c, (c1 <- Accumulate.topApiVersion c doc ;; Accumulate.topKind c1 doc)
                 = Ok (extend c eTop))
      /\ (forall c, Accumulate.topMetadata c doc = Ok (extend c eMeta))
      /\ (forall c, Accumulate.validateTop c doc
                    = Ok (extend c (eTop ++ [verrOf 0 "spec is required"] ++ eMeta))))
  /\ (forall s,
        FailFast.validateTopLevel f doc s
        = FailFast.andThen (FailFast.topApiVersion f doc)
            (FailFast.andThen (FailFast.topKind f doc)
               (FailFast.andThen (FailFast.topMetadata f doc)
                  (FailFast.failRequired f "spec"))) s).
Proof.
  intros Hp Hm Hf. pose proof (good_root doc Hp) as Hg. split.
  - destruct (rel_topApiVersion f doc false doc Hg) as (e1 & _ & H1 & _).
    destruct (rel_topKind f doc false doc Hg) as (e2 & _ & H2 & _).
    destruct (rel_topMetadata f doc false doc Hg) as (e4 & _ & H4 & _).
    exists (e1 ++ e2)%list, e4. split; [|split].
    + intros c. rewrite H1. cbn [bind]. rewrite H2. now rewrite extend_app.
    + exact H4.
    + intros c. unfold Accumulate.validateTop. rewrite Hm. cbn [negb].
      rewrite H1. cbn [bind]. rewrite H2. cbn [bind]. rewrite Hf.
      cbn [bind Accumulate.topSpec]. rewrite H4. cbn [bind Accumulate.topContainers].
      rewrite addRequired_extend, !extend_app. now rewrite <- !app_assoc.
  - intros s. unfold FailFast.validateTopLevel, FailFast.topSpec, FailFast.withField,
      FailFast.getField. rewrite Hm, Hf. reflexivity.
Qed.

End AbsentSpec.

(** *** The further properties at concrete inputs *)

Lemma X2_memory_quantity_witness :
  Accumulate.isStr (strN 22 "512Mi") = true
  /\ forall c, Accumulate.rrEntry c (strN 22 "memory") (strN 22 "512Mi") = c.
Proof.
  split; [reflexivity |].
  exact (proj1 (proj2 (X2_memory_quantity (U := noTables) "pod.yaml"
                         "containers.resources.limits" (strN 22 "memory") (strN 22 "512Mi")
                         eq_refl eq_refl eq_refl))).
Defined.

Lemma X3_snake_case_name_witness :
  field (mapN 7 (webContainer 7)) "name" = Ok (Some (strN 7 "web_app"))
  /\ forall s, FailFast.containerName "pod.yaml" (mapN 7 (webContainer 7)) s = Ok (None, s).
Proof.
  split; [reflexivity |].
  exact (proj2 (proj2 (X3_snake_case_name (U := noTables) "pod.yaml" (mapN 7 (webContainer 7))
                         (strN 7 "web_app") eq_refl eq_refl))).
Defined.

Lemma X4_case_of_letters_witness :
  allASCII "Linux" = true
  /\ forall c, Accumulate.validateSpec (U := noTables) c (mapN 8 [ strN 8 "os"; strN 8 "Linux" ])
               = Ok c.
Proof.
  split; [reflexivity |].
  exact (proj1 (proj1 (X4_case_of_letters (U := noTables) "pod.yaml"
                         (mapN 8 [ strN 8 "os"; strN 8 "Linux" ])
                         (mapN 13 [ strN 13 "protocol"; strN 8 "Linux" ])
                         (strN 8 "Linux") eq_refl eq_refl) eq_refl)).
Defined.

Lemma X5_blanks_around_integers_witness :
  allBytes asciiSpace " " = true
  /\ Accumulate.asInt (U := noTables) (strN 3 " 80 ") = (Some 80, 3).
Proof.
  split; [reflexivity |].
  exact (proj1 (proj2 (X5_blanks_around_integers (U := noTables) (strN 3 " 80 ")
                         " " "80" " " eq_refl eq_refl eq_refl eq_refl eq_refl eq_refl))).
Defined.

Lemma X6_blank_metadata_name_witness :
  field blankNameMeta "name" = Ok (Some (strN 4 "  "))
  /\ forall c, Accumulate.metadataName (U := noTables) c blankNameMeta
               = Ok (Accumulate.add c 4 "name is required").
Proof.
  split; [reflexivity |].
  exact (proj1 (X6_blank_metadata_name (U := noTables) "pod.yaml" blankNameMeta
                  (strN 4 "  ") eq_refl eq_refl)).
Defined.

Lemma X7_labels_one_error_each_witness :
  field labelledMeta "labels" = Ok (Some intLabel)
  /\ exists new,
       (forall c, Accumulate.metadataLabels c labelledMeta = Ok (extend c new))
       /\ List.map Accumulate.line new = List.map Line (notStrings (Content intLabel))
       /\ match notStrings (Content intLabel) with
          | [] => forall s, FailFast.metadataLabels "pod.yaml" labelledMeta s = Ok (None, s)
          | b :: _ => exists text, forall s,
                        FailFast.metadataLabels "pod.yaml" labelledMeta s
                        = FailFast.fail "pod.yaml" (Line b) text s
          end.
Proof.
  split; [reflexivity |].
  exact (X7_labels_one_error_each "pod.yaml" labelledMeta intLabel
           eq_refl eq_refl eq_refl).
Defined.

Lemma X8_containers_one_by_one_witness :
  parsed specOne = true
  /\ exists es,
       Forall2 (fun x e => forall c,
                  Accumulate.validateContainer (U := noTables) c x = Ok (extend c e))
               (Content oneContainer) es
       /\ (forall c, Accumulate.validateSpecContainers (U := noTables) c specOne
                     = Ok (extend c (List.concat es)))
       /\ ((forall s, FailFast.specContainers (U := noTables) "pod.yaml" specOne s
                      = Ok (None, s))
           <-> Forall (fun x => forall s,
                         FailFast.validateContainer (U := noTables) "pod.yaml" x s
                         = Ok (None, s))
                      (Content oneContainer)).
Proof.
  split; [reflexivity |].
  refine (X8_containers_one_by_one (U := noTables) "pod.yaml" specOne oneContainer
            eq_refl eq_refl eq_refl _).
  discriminate.
Defined.

Lemma X9_reports_the_first_error_witness :
  parsed labelledMeta = true
  /\ reportsFirst "pod.yaml"
       (fun c => Accumulate.validateMetadata (U := noTables) c labelledMeta)
       (FailFast.validateMetadata (U := noTables) "pod.yaml" labelledMeta).
Proof.
  split; [reflexivity |].
  exact (proj1 (X9_reports_the_first_error (U := noTables) "pod.yaml" "readinessProbe"
                  labelledMeta eq_refl)).
Defined.

Lemma X10_decimal_ports_witness :
  0 <= 8080 <= maxInt
  /\ Accumulate.asInt (U := noTables) (numeral "!!int" 13 8080) = (Some 8080, 13).
Proof.
  assert (H : 0 <= 8080 <= maxInt) by (unfold maxInt; lia).
  split; [exact H |].
  exact (proj1 (X10_decimal_ports (U := noTables) "pod.yaml" "!!int" 13 8080 H)).
Defined.

Lemma X11_absent_spec_witness :
  parsed podNoSpec = true
  /\ forall s,
       FailFast.validateTopLevel (U := noTables) "pod.yaml" podNoSpec s
       = FailFast.andThen (FailFast.topApiVersion "pod.yaml" podNoSpec)
           (FailFast.andThen (FailFast.topKind "pod.yaml" podNoSpec)
              (FailFast.andThen (FailFast.topMetadata (U := noTables) "pod.yaml" podNoSpec)
                 (FailFast.failRequired "pod.yaml" "spec"))) s.
Proof.
  split; [reflexivity |].
  exact (proj2 (X11_absent_spec (U := noTables) "pod.yaml" podNoSpec
                  eq_refl eq_refl eq_refl)).
Defined.
